(** * sabrina-bot: the meme compositor of [make_meme.py]

    A shallow embedding of [load_font], [fit_image], [draw_justified_text]
    and [make_meme], together with the parts of Pillow, [textwrap] and the
    Python runtime they call, and the properties of the written
    specification that were checked against them.

    Conventions of the embedding.
    - A Python [int] is a [Z].  A Python [float] is an exact rational [Q]:
      rounding to binary64 is not modelled, [int(x)] is truncation toward
      zero, [a // b] is floor division.
    - A Python [str] is a [string] whose characters are read as the code
      points 0..255.
    - A raised exception is [Err e]; code that can raise runs in the
      [result] monad, code that also touches the file system or standard
      output runs in the state-and-exception monad [M] over [World]. *)

From Stdlib Require Import ZArith QArith Qround String Ascii List Bool Lia Lqa.
From stdpp Require Import base option gmap sets strings.
Import ListNotations.

#[local] Open Scope string_scope.
#[local] Open Scope list_scope.
#[local] Open Scope Z_scope.

(** ** Exceptions and the exception monad *)

(** The Python exception classes that the modelled code can raise. *)
Inductive exn : Type :=
  | FileNotFoundError
  | UnidentifiedImageError
  | FileExistsError
  | IsADirectoryError
  | OSError
  | ValueError
  | ZeroDivisionError.

Inductive result (A : Type) : Type :=
  | Ok (a : A)
  | Err (e : exn).
Arguments Ok {A} a.
Arguments Err {A} e.

Definition rbind {A B} (r : result A) (k : A -> result B) : result B :=
  match r with
  | Ok a => k a
  | Err e => Err e
  end.

Declare Scope result_scope.
Delimit Scope result_scope with result.
Notation "'let?' x ':=' r 'in' k" := (rbind r (fun x => k))
  (at level 10, x name, r at level 100, k at level 200) : result_scope.

Definition is_ok {A} (r : result A) : bool :=
  match r with Ok _ => true | Err _ => false end.

(** ** Python numbers *)

Module Py.

(** [a / b] on two ints (true division). *)
Definition truediv (a b : Z) : result Q :=
  if b =? 0 then Err ZeroDivisionError else Ok (inject_Z a / inject_Z b)%Q.

(** [a / x] with an int on the left and a float on the right. *)
Definition div_float (a : Z) (x : Q) : result Q :=
  if Qeq_bool x 0 then Err ZeroDivisionError else Ok (inject_Z a / x)%Q.

(** [int(x)]: truncation toward zero. *)
Definition int (x : Q) : Z := Z.quot (Qnum x) (Zpos (Qden x)).

(** [x > y] on floats. *)
Definition gt (x y : Q) : bool := negb (Qle_bool x y).

(** [max(1, x)]: Python keeps the first argument unless a later one is
    strictly greater. *)
Definition max1 (x : Q) : Q := if gt x 1 then x else 1%Q.

(** [x // 2] on a float: the floor of the half, still a float. *)
Definition floordiv2 (x : Q) : Q := inject_Z (Qfloor (x / 2)).

End Py.

(** ** Pillow images *)

Definition rgb : Type := Z * Z * Z.

Record rgba : Type := RGBA { red : Z; green : Z; blue : Z; alpha : Z }.

(** An image of mode ["RGB"] or ["RGBA"]: its size and its pixel access.
    [getpixel x y] is meaningful for [0 <= x < width], [0 <= y < height]. *)
Record Image (P : Type) : Type := mkImage {
  width : Z;
  height : Z;
  getpixel : Z -> Z -> P
}.
Arguments mkImage {P} _ _ _.
Arguments width {P} _.
Arguments height {P} _.
Arguments getpixel {P} _ _ _.

Definition in_bounds {P} (im : Image P) (x y : Z) : bool :=
  (0 <=? x) && (x <? width im) && (0 <=? y) && (y <? height im).

Definition white : rgb := (255, 255, 255).
Definition black : rgb := (0, 0, 0).

Module PIL.

(** [Image.new(mode, (w, h), color)]: Pillow refuses negative sizes. *)
Definition new {P} (w h : Z) (color : P) : result (Image P) :=
  if (w <? 0) || (h <? 0) then Err ValueError
  else Ok (mkImage w h (fun _ _ => color)).

(** [canvas.paste(im, (x, y))]: [im] replaces the pixels of the
    rectangle it covers; what falls outside [canvas] is clipped. *)
Definition paste {P} (canvas im : Image P) (x y : Z) : Image P :=
  mkImage (width canvas) (height canvas)
    (fun px py =>
       if in_bounds im (px - x) (py - y)
       then getpixel im (px - x) (py - y)
       else getpixel canvas px py).

(** [im.crop((left, upper, right, lower))]: the region, with the pixels
    it has outside [im] left at zero. *)
Definition crop (im : Image rgb) (left upper right lower : Z)
  : result (Image rgb) :=
  if (right <? left) || (lower <? upper) then Err ValueError
  else Ok (mkImage (right - left) (lower - upper)
             (fun px py =>
                if in_bounds im (px + left) (py + upper)
                then getpixel im (px + left) (py + upper)
                else black)).

(** [ImageOps.expand(im, border=b, fill=color)]: a new image, [b] pixels
    larger on every side, with [im] pasted at [(b, b)]. *)
Definition expand (im : Image rgb) (border : Z) (fill : rgb)
  : result (Image rgb) :=
  (let? out := new (border + width im + border)
                   (border + height im + border) fill in
   Ok (paste out im border border))%result.

(** [im.convert("RGB")] on an RGBA image drops the alpha band. *)
Definition convert_RGB (im : Image rgba) : Image rgb :=
  mkImage (width im) (height im)
    (fun x y => let p := getpixel im x y in (red p, green p, blue p)).

(** The pixels of an image in row order. *)
Definition coords (w h : Z) : list (Z * Z) :=
  y ← seqZ 0 h; x ← seqZ 0 w; [(x, y)].

Definition pixels {P} (im : Image P) : list P :=
  (fun c => getpixel im (fst c) (snd c)) <$> coords (width im) (height im).

(** [im.getchannel("A").getextrema()]: the least and the greatest alpha
    value of an image that has at least one pixel. *)
Definition alpha_extrema (im : Image rgba) : Z * Z :=
  let band := alpha <$> pixels im in
  (foldr Z.min 255 band, foldr Z.max 0 band).

(** [im.resize((w, h), Image.LANCZOS)].  An unchanged size returns a
    copy; otherwise Pillow raises "height and width must be > 0" when a
    side is below one pixel and resamples with the filter [lanczos]. *)
Definition resize (lanczos : Image rgb -> Z -> Z -> Z -> Z -> rgb)
    (im : Image rgb) (w h : Z) : result (Image rgb) :=
  if (width im =? w) && (height im =? h) then Ok im
  else if (w <? 1) || (h <? 1) then Err ValueError
  else Ok (mkImage w h (lanczos im w h)).

End PIL.

(** ** Python strings *)

Module Str.

Definition code (c : ascii) : Z := Z.of_N (N_of_ascii c).
Definition chr (n : Z) : ascii := ascii_of_N (Z.to_N n).

Definition chars (s : string) : list ascii := list_ascii_of_string s.
Definition of_chars (l : list ascii) : string := string_of_list_ascii l.
Definition len (s : string) : Z := Z.of_nat (String.length s).

Definition between (lo hi : Z) (c : ascii) : bool :=
  (lo <=? code c) && (code c <=? hi).

(** [c.isspace()]: tab to carriage return, the four separators
    [\x1c]..[\x1f], the space, next-line and the no-break space. *)
Definition isspace (c : ascii) : bool :=
  between 9 13 c || between 28 31 c || (code c =? 32)
  || (code c =? 133) || (code c =? 160).

(** The characters at which [str.splitlines] ends a line. *)
Definition is_linebreak (c : ascii) : bool :=
  between 10 13 c || between 28 30 c || (code c =? 133).

(** [s.upper()] on the letters a..z; the other characters of the ASCII
    range have no upper case and stay as they are.  The upper case of
    the letters above that range is not modelled: they are left as they
    are, too. *)
Definition upper_char (c : ascii) : ascii :=
  if between 97 122 c then chr (code c - 32) else c.

Definition upper (s : string) : string := of_chars (upper_char <$> chars s).

(** [s.strip()]. *)
Fixpoint lstrip_chars (l : list ascii) : list ascii :=
  match l with
  | c :: l' => if isspace c then lstrip_chars l' else l
  | [] => []
  end.

Definition strip_chars (l : list ascii) : list ascii :=
  rev (lstrip_chars (rev (lstrip_chars l))).

Definition strip (s : string) : string := of_chars (strip_chars (chars s)).

Definition is_blank (s : string) : bool :=
  match strip s with EmptyString => true | _ => false end.

(** [s.splitlines()]: [cur] is the line read so far, [after_cr] tells
    that the previous character was a carriage return, which a line
    feed then completes.  A last line without a line end is kept when it
    is not empty. *)
Fixpoint splitlines_from (after_cr : bool) (cur : list ascii)
    (l : list ascii) : list string :=
  match l with
  | [] => match cur with [] => [] | _ => [of_chars cur] end
  | c :: l' =>
      if after_cr && (code c =? 10) then splitlines_from false cur l'
      else if is_linebreak c
           then of_chars cur :: splitlines_from (code c =? 13) [] l'
           else splitlines_from false (cur ++ [c]) l'
  end.

Definition splitlines (s : string) : list string :=
  splitlines_from false [] (chars s).

End Str.

(** ** The standard module [textwrap]

    [textwrap.wrap(text, width)] with the default options of
    [TextWrapper]: tabs expanded to columns of 8, whitespace replaced by
    spaces, long words broken, whitespace dropped at line ends, breaks
    allowed after hyphens.  Chunks and lines are lists of characters. *)

Module Textwrap.
Import Str.

Definition chunk : Type := list ascii.

Definition clen (c : chunk) : Z := Z.of_nat (length c).

(** The characters of [textwrap._whitespace], written tab, newline,
    vertical tab, form feed, carriage return and space. *)
Definition is_ws (c : ascii) : bool := between 9 13 c || (code c =? 32).
Definition is_hyphen (c : ascii) : bool := code c =? 45.
Definition is_digit (c : ascii) : bool := between 48 57 c.
(** [letter]: a word character that is not a digit. *)
Definition is_letter (c : ascii) : bool :=
  between 65 90 c || between 97 122 c || (code c =? 95).
(** [\w]. *)
Definition is_word (c : ascii) : bool := is_letter c || is_digit c.
(** [word_punct]: a word character, an exclamation mark, a double or a
    single quote, an ampersand, a full stop, a comma or a question
    mark. *)
Definition is_word_punct (c : ascii) : bool :=
  is_word c || (code c =? 33) || (code c =? 34) || (code c =? 39)
  || (code c =? 38) || (code c =? 46) || (code c =? 44) || (code c =? 63).

(** [text.expandtabs(8)]: [col] is the current column. *)
Fixpoint expandtabs_from (col : Z) (l : list ascii) : list ascii :=
  match l with
  | [] => []
  | c :: l' =>
      if code c =? 9 then
        let incr := 8 - col mod 8 in
        repeat (chr 32) (Z.to_nat incr) ++ expandtabs_from (col + incr) l'
      else
        c :: expandtabs_from
               (if (code c =? 10) || (code c =? 13) then 0 else col + 1) l'
  end.

(** [_munge_whitespace]. *)
Definition munge_whitespace (l : list ascii) : list ascii :=
  (fun c => if is_ws c then chr 32 else c) <$> expandtabs_from 0 l.

(** *** [_split]: the chunks matched by [wordsep_re]

    [back] is the text before the current position, last character
    first: the look-behinds of the expression read it. *)

Fixpoint ws_run (l : list ascii) : nat :=
  match l with
  | c :: l' => if is_ws c then S (ws_run l') else O
  | [] => O
  end.

Fixpoint hyphen_run (l : list ascii) : nat :=
  match l with
  | c :: l' => if is_hyphen c then S (hyphen_run l') else O
  | [] => O
  end.

(** An em-dash starts here: a word or punctuation character behind, two
    hyphens or more ahead, and a word character after them. *)
Definition emdash_here (back l : list ascii) : bool :=
  match back with
  | p :: _ =>
      is_word_punct p
      && (2 <=? hyphen_run l)%nat
      && match drop (hyphen_run l) l with
         | w :: _ => is_word w
         | [] => false
         end
  | [] => false
  end.

(** A hyphenated word breaks after the hyphen at the head of [l]: two
    letters, or letter-hyphen-letter, behind it, and a letter, an
    optional hyphen and a letter after it. *)
Definition hyphen_break (back l : list ascii) : bool :=
  match l with
  | h :: ahead =>
      is_hyphen h
      && match back with
         | b1 :: b2 :: more =>
             (is_letter b1 && is_letter b2)
             || (is_letter b1 && is_hyphen b2
                 && match more with b3 :: _ => is_letter b3 | [] => false end)
         | _ => false
         end
      && match ahead with
         | l1 :: l2 :: more =>
             is_letter l1
             && (is_letter l2
                 || (is_hyphen l2
                     && match more with
                        | l3 :: _ => is_letter l3
                        | [] => false
                        end))
         | _ => false
         end
  | [] => false
  end.

(** How many more characters the word chunk takes, one character of it
    or more being taken already; the expression is lazy, so the first
    place where one of its three endings matches ends the chunk. *)
Fixpoint word_rest (back l : list ascii) : nat :=
  match l with
  | [] => O
  | c :: l' =>
      if hyphen_break back l then 1%nat
      else if is_ws c then O
      else if emdash_here back l then O
      else S (word_rest (c :: back) l')
  end.

Definition next_chunk_len (back l : list ascii) : nat :=
  match l with
  | [] => O
  | c :: l' =>
      if is_ws c then ws_run l
      else if emdash_here back l then hyphen_run l
      else S (word_rest (c :: back) l')
  end.

Fixpoint split_from (fuel : nat) (back l : list ascii) : list chunk :=
  match fuel, l with
  | S fuel', _ :: _ =>
      let n := next_chunk_len back l in
      take n l :: split_from fuel' (rev (take n l) ++ back) (drop n l)
  | _, _ => []
  end.

(** Every chunk has a character, so [length l] rounds are enough. *)
Definition split (l : list ascii) : list chunk :=
  split_from (length l) [] l.

(** *** [_wrap_chunks] *)

Definition chunk_blank (c : chunk) : bool :=
  match strip_chars c with [] => true | _ => false end.

(** The inner loop: chunks move to the current line while they fit. *)
Fixpoint fill (width : Z) (cur_line : list chunk) (cur_len : Z)
    (chunks : list chunk) : list chunk * Z * list chunk :=
  match chunks with
  | c :: rest =>
      if cur_len + clen c <=? width
      then fill width (cur_line ++ [c]) (cur_len + clen c) rest
      else (cur_line, cur_len, chunks)
  | [] => (cur_line, cur_len, [])
  end.

(** [chunk.rfind(hyphen, 0, stop)]: the last index below [stop] that
    holds a hyphen, or -1. *)
Fixpoint rfind_hyphen_from (i : Z) (c : chunk) (stop : Z) : Z :=
  match c with
  | [] => -1
  | a :: c' =>
      let later := rfind_hyphen_from (i + 1) c' stop in
      if 0 <=? later then later
      else if is_hyphen a && (i <? stop) then i else -1
  end.

Definition rfind_hyphen (c : chunk) (stop : Z) : Z :=
  rfind_hyphen_from 0 c stop.

(** [_handle_long_word]: the chunk at the head of [chunks] is longer
    than a line; as much of it as fits goes to the current line, cut
    after its last hyphen when that hyphen has something else before
    it. *)
Definition handle_long_word (width : Z) (cur_line : list chunk)
    (cur_len : Z) (chunks : list chunk) : list chunk * list chunk :=
  match chunks with
  | [] => (cur_line, chunks)
  | c :: rest =>
      let space_left := if width <? 1 then 1 else width - cur_len in
      let hyphen := rfind_hyphen c space_left in
      let stop :=
        if (space_left <? clen c) && (0 <? hyphen)
           && existsb (fun a => negb (is_hyphen a))
                (take (Z.to_nat hyphen) c)
        then hyphen + 1 else space_left in
      (cur_line ++ [take (Z.to_nat stop) c],
       drop (Z.to_nat stop) c :: rest)
  end.

(** The last chunk of a line is dropped when it is blank. *)
Definition drop_trailing_blank (cur_line : list chunk) : list chunk :=
  match rev cur_line with
  | c :: before => if chunk_blank c then rev before else cur_line
  | [] => cur_line
  end.

(** One round of the outer loop of [_wrap_chunks] builds one line;
    [have_lines] tells that [lines] is not empty.  A round removes a
    chunk or a character, which bounds the rounds by [fuel]. *)
Fixpoint wrap_rounds (fuel : nat) (width : Z) (have_lines : bool)
    (chunks : list chunk) : list string :=
  match fuel, chunks with
  | S fuel', first :: rest =>
      let chunks1 :=
        if chunk_blank first && have_lines then rest else chunks in
      let '(cur_line, cur_len, chunks2) := fill width [] 0 chunks1 in
      let '(cur_line1, chunks3) :=
        match chunks2 with
        | c :: _ =>
            if width <? clen c
            then handle_long_word width cur_line cur_len chunks2
            else (cur_line, chunks2)
        | [] => (cur_line, chunks2)
        end in
      match drop_trailing_blank cur_line1 with
      | [] => wrap_rounds fuel' width have_lines chunks3
      | line => of_chars (concat line) :: wrap_rounds fuel' width true chunks3
      end
  | _, _ => []
  end.

Definition rounds_bound (chunks : list chunk) : nat :=
  S (length chunks + length (concat chunks)).

Definition wrap_chunks (width : Z) (chunks : list chunk)
  : result (list string) :=
  if width <=? 0 then Err ValueError
  else Ok (wrap_rounds (rounds_bound chunks) width false chunks).

(** [textwrap.wrap(text, width=width)]. *)
Definition wrap (text : string) (width : Z) : result (list string) :=
  wrap_chunks width (split (munge_whitespace (chars text))).

End Textwrap.

(** ** What the host provides

    The font files, the glyph metrics and rasteriser of FreeType, the
    resampling filter, the image decoders and the PNG encoder are not part
    of the repository: the embedding takes them from a [Platform]. *)

Inductive Font : Type :=
  | TrueType (path : string) (size : Z)
  | DefaultFont (size : Z).

Record Platform : Type := {
  (** [ImageFont.truetype(path, size=size)] *)
  truetype : string -> Z -> result Font;
  (** [ImageFont.load_default(size=size)] *)
  load_default : Z -> result Font;
  (** [font.getlength(text)], a float *)
  getlength : Font -> string -> Q;
  (** [font.getbbox(text)], as (left, top, right, bottom) *)
  getbbox : Font -> string -> Z * Z * Z * Z;
  (** the pixel at [(x, y)] of an image resampled to [(w, h)] with
      [Image.LANCZOS] *)
  lanczos : Image rgb -> Z -> Z -> Z -> Z -> rgb;
  (** the decoders behind [Image.open(...).convert("RGBA")]; [None] when
      the bytes are not an image *)
  decode : string -> option (Image rgba);
  (** the PNG encoder behind [im.save(path, "PNG")] *)
  encode_png : Image rgb -> string;
  (** [draw.text((x, y), line, font=font, fill=fill)] on the image the
      [ImageDraw] object was made for *)
  draw_text : Image rgb -> Q * Z -> string -> Font -> rgb -> Image rgb
}.

(** ** The file system, standard output, and the monad of [make_meme] *)

(** Where [Image.open] reads from: a file name, or a file-like object
    holding bytes (the bot passes an [io.BytesIO]). *)
Inductive ImageSource : Type :=
  | FromPath (path : string)
  | FromBytes (data : string).

Inductive event : Type :=
  | Opened (src : ImageSource)
  | Printed (msg : string)
  | MadeDirs (paths : list string)
  | Saved (path : string).

Record World : Type := mkWorld {
  files : gmap string string;
  dirs : gset string;
  trace : list event
}.

Definition M (A : Type) : Type := World -> result A * World.

Definition mret {A} (a : A) : M A := fun w => (Ok a, w).
Definition raise {A} (e : exn) : M A := fun w => (Err e, w).
Definition mbind {A B} (c : M A) (k : A -> M B) : M B :=
  fun w => match c w with
           | (Ok a, w') => k a w'
           | (Err e, w') => (Err e, w')
           end.
Definition lift {A} (r : result A) : M A := fun w => (r, w).
Definition log (e : event) : M unit :=
  fun w => (Ok tt, mkWorld (files w) (dirs w) (trace w ++ [e])).

Declare Scope M_scope.
Delimit Scope M_scope with M.
Notation "'let!' x ':=' c 'in' k" := (mbind c (fun x => k))
  (at level 10, x name, c at level 100, k at level 200) : M_scope.
Notation "c ';;' k" := (mbind c (fun _ => k))
  (at level 100, k at level 200, right associativity) : M_scope.

Module IO.

(** [print(...)]. *)
Definition print (msg : string) : M unit := log (Printed msg).

(** What [Image.open(src).convert("RGBA")] yields on the files [fs]: a
    missing file raises [FileNotFoundError], bytes that no decoder
    accepts raise [UnidentifiedImageError]. *)
Definition read_image (P : Platform) (fs : gmap string string)
    (src : ImageSource) : result (Image rgba) :=
  let data := match src with
              | FromPath p => fs !! p
              | FromBytes b => Some b
              end in
  match data with
  | None => Err FileNotFoundError
  | Some b => match decode P b with
              | Some im => Ok im
              | None => Err UnidentifiedImageError
              end
  end.

Definition open_image (P : Platform) (src : ImageSource) : M (Image rgba) :=
  (log (Opened src) ;;
   fun w => (read_image P (files w) src, w))%M.

(** The directories above a file: every proper prefix of its path that
    ends before a slash.  Paths are taken as already normalised. *)
Fixpoint ancestors_from (seen : list ascii) (l : list ascii) : list string :=
  match l with
  | [] => []
  | c :: l' =>
      (if (Str.code c =? 47) && negb (bool_decide (seen = []))
       then [Str.of_chars seen] else [])
      ++ ancestors_from (seen ++ [c]) l'
  end.

Definition ancestors (path : string) : list string :=
  ancestors_from [] (Str.chars path).

(** [Path(path).parent.mkdir(parents=True, exist_ok=True)]: fails when
    a file stands where a directory is needed. *)
Definition mkdir_parents (path : string) : M unit :=
  fun w =>
    if existsb (fun d => bool_decide (is_Some (files w !! d))) (ancestors path)
    then (Err FileExistsError, w)
    else (Ok tt, mkWorld (files w)
                   (list_to_set (ancestors path) ∪ dirs w)
                   (trace w ++ [MadeDirs (ancestors path)])).

(** [im.save(path, "PNG")]: the encoded image becomes the content of
    the file. *)
Definition save (P : Platform) (im : Image rgb) (path : string) : M unit :=
  fun w =>
    if bool_decide (path ∈ dirs w) then (Err IsADirectoryError, w)
    else (Ok tt, mkWorld (<[path := encode_png P im]> (files w))
                   (dirs w) (trace w ++ [Saved path])).

End IO.

(** ** [make_meme.py] *)

Section MakeMeme.

Variable P : Platform.

Definition candidates : list string :=
  [ "/usr/share/fonts/truetype/dejavu/DejaVuSans-Bold.ttf";
    "/usr/share/fonts/truetype/liberation/LiberationSans-Bold.ttf" ].

(** The [for] loop of [load_font] over the candidates left, and the
    [return] that follows it. *)
Fixpoint load_font_from (cands : list string) (size : Z) : M Font :=
  match cands with
  | p :: rest =>
      match truetype P p size with
      | Ok font => mret font
      | Err _ =>
          (IO.print ("Warning: could not load font at " ++ p)%string ;;
           load_font_from rest size)%M
      end
  | [] => lift (load_default P size)
  end.

Definition load_font (size : Z) : M Font := load_font_from candidates size.

(** The size [(new_w, new_h)] that [fit_image] resizes to. *)
Definition fit_size (img_w img_h box_w box_h : Z) : result (Z * Z) :=
  (let? img_ratio := Py.truediv img_w img_h in
   let? box_ratio := Py.truediv box_w box_h in
   if Py.gt img_ratio box_ratio then
     let? q := Py.div_float box_w img_ratio in
     Ok (box_w, Py.int q)
   else
     Ok (Py.int (inject_Z box_h * img_ratio)%Q, box_h))%result.

Definition fit_image (img : Image rgb) (box_w box_h : Z)
  : result (Image rgb) :=
  (let? size := fit_size (width img) (height img) box_w box_h in
   let '(new_w, new_h) := size in
   let? resized := PIL.resize (lanczos P) img new_w new_h in
   let? canvas := PIL.new box_w box_h (240, 240, 240) in
   let x := (box_w - new_w) / 2 in
   let y := (box_h - new_h) / 2 in
   Ok (PIL.paste canvas resized x y))%result.

Definition Box : Type := Z * Z * Z * Z.

Definition reference_glyphs : string := "ABCDEFGHIJKLMNOPQRSTUVWXYZ ".

Definition avg_char_w (font : Font) : Q :=
  (foldl Qplus 0
     ((fun c => getlength P font (String c EmptyString))
        <$> Str.chars reference_glyphs) / 27)%Q.

Definition est_chars_per_line (font : Font) (max_width : Z) : Z :=
  Z.max 1 (Py.int (inject_Z max_width / Py.max1 (avg_char_w font))%Q).

(** The first loop of [draw_justified_text]: the lines of the block. *)
Fixpoint wrap_paragraphs (width : Z) (paras : list string)
  : result (list string) :=
  match paras with
  | [] => Ok []
  | para :: rest =>
      (let? wrapped := Textwrap.wrap para width in
       let? more := wrap_paragraphs width rest in
       Ok (wrapped ++ (if Str.is_blank para then [""] else []) ++ more)
      )%result
  end.

Definition text_lines (font : Font) (max_width : Z) (text : string)
  : result (list string) :=
  wrap_paragraphs (est_chars_per_line font max_width) (Str.splitlines text).

Definition line_height (font : Font) : Z :=
  let '(_, top, _, bottom) := getbbox P font "Ay" in bottom - top.

(** The second loop: one [draw.text] call per line, [y] moving down. *)
Fixpoint draw_lines (img : Image rgb) (x0 max_width y step : Z)
    (font : Font) (fill : rgb) (lines : list string) : Image rgb :=
  match lines with
  | [] => img
  | line :: rest =>
      let w := getlength P font line in
      let pos := ((inject_Z x0 + Py.floordiv2 (inject_Z max_width - w))%Q, y) in
      draw_lines (draw_text P img pos line font fill)
        x0 max_width (y + step) step font fill rest
  end.

(** [draw] is the drawing object of the image [img], which it changes
    in place: the function returns the image after the calls. *)
Definition draw_justified_text (img : Image rgb) (box : Box)
    (text : string) (font : Font) (fill : rgb) (line_spacing : Z)
  : result (Image rgb) :=
  let '(x0, y0, x1, y1) := box in
  let max_width := x1 - x0 in
  (let? lines := text_lines font max_width text in
   let lh := line_height font in
   let n := Z.of_nat (length lines) in
   let total_h := n * lh + (n - 1) * line_spacing in
   let y := y0 + (y1 - y0 - total_h) / 2 in
   Ok (draw_lines img x0 max_width y (lh + line_spacing) font fill lines)
  )%result.

Definition sabrina_path : string := "sabrina.png".

(** The test of the sticker branch; the mode of [right] is ["RGBA"]
    after its conversion. *)
Definition wants_sticker (right : Image rgba) : bool :=
  snd (PIL.alpha_extrema right) <? 255.

(** The body of the sticker branch. *)
Definition sticker (right_fit : Image rgb) (col_w top_h : Z)
  : result (Image rgb) :=
  (let? expanded := PIL.expand right_fit 2 white in
   PIL.crop expanded 0 0 col_w top_h)%result.

Definition make_meme (user_png_bytes : ImageSource) (meme_text : string)
    (out_path : string) (canvas_w canvas_h font_size : Z)
  : M (Image rgb) :=
  let margin := 12 in
  let gutter := 8 in
  let top_h := Py.int (inject_Z canvas_h * (56 # 100))%Q in
  let panel_h := canvas_h - top_h in
  let col_w := (canvas_w - 2 * margin - gutter) / 2 in
  (let! bg := lift (PIL.new canvas_w canvas_h (220, 220, 220)) in
   let! sabrina := IO.open_image P (FromPath sabrina_path) in
   let sabrina := PIL.convert_RGB sabrina in
   let! right := IO.open_image P user_png_bytes in
   let! left_fit := lift (fit_image sabrina col_w top_h) in
   let bg := PIL.paste bg left_fit margin margin in
   let! right_fit := lift (fit_image (PIL.convert_RGB right) col_w top_h) in
   let! right_fit :=
     lift (if wants_sticker right then sticker right_fit col_w top_h
           else Ok right_fit) in
   let bg := PIL.paste bg right_fit (margin + col_w + gutter) margin in
   let! panel := lift (PIL.new canvas_w panel_h (29, 29, 31)) in
   let bg := PIL.paste bg panel 0 top_h in
   let text_pad := 20 in
   let! font := load_font font_size in
   let text_box :=
     (text_pad, top_h + text_pad, canvas_w - text_pad, canvas_h - text_pad) in
   let! bg := lift (draw_justified_text bg text_box (Str.upper meme_text)
                      font (255, 255, 255) 6) in
   IO.mkdir_parents out_path ;;
   IO.save P bg out_path ;;
   mret bg)%M.

End MakeMeme.

(** ** A host to run the code on

    Resampling by nearest neighbour, fonts whose glyphs are all
    [6/10 * size] wide, a decoder that knows three byte strings, and the
    checks of [ImageFont] on the font size: Pillow raises [ValueError]
    for a size that is not greater than zero, in [truetype] as well as in
    [load_default], which loads its built-in font through [truetype]. *)

Module Demo.

Definition nearest (im : Image rgb) (w h x y : Z) : rgb :=
  getpixel im (x * width im / w) (y * height im / h).

Definition pillow_truetype (installed : string -> bool)
    (path : string) (size : Z) : result Font :=
  if size <=? 0 then Err ValueError
  else if installed path then Ok (TrueType path size)
  else Err OSError.

Definition pillow_load_default (size : Z) : result Font :=
  if size <=? 0 then Err ValueError else Ok (DefaultFont size).

Definition font_size (font : Font) : Z :=
  match font with TrueType _ size => size | DefaultFont size => size end.

Definition solid (w h : Z) (p : rgba) : Image rgba :=
  mkImage w h (fun _ _ => p).

(** A 2 by 1 image: a fully transparent pixel next to an opaque one. *)
Definition half_clear : Image rgba :=
  mkImage 2 1 (fun x _ => RGBA 10 20 30 (if x =? 0 then 0 else 255)).

Definition toy_decode (data : string) : option (Image rgba) :=
  if String.eqb data "portrait" then Some (solid 30 40 (RGBA 200 0 0 255))
  else if String.eqb data "strip" then Some (solid 400 1 (RGBA 0 200 0 255))
  else if String.eqb data "cutout" then Some (solid 12 9 (RGBA 0 0 200 128))
  else None.

Definition platform (installed : string -> bool) : Platform := {|
  truetype := pillow_truetype installed;
  load_default := pillow_load_default;
  getlength font text :=
    (inject_Z (font_size font * Str.len text) * (6 # 10))%Q;
  getbbox font text :=
    (0, 0, font_size font * Str.len text * 6 / 10, font_size font);
  lanczos := nearest;
  decode := toy_decode;
  encode_png im := "PNG";
  draw_text im pos line font fill := im
|}.

Definition no_fonts : Platform := platform (fun _ => false).

(** A working directory that holds the template and nothing else. *)
Definition world : World :=
  mkWorld {[ "sabrina.png" := "portrait" ]} ∅ [].

End Demo.

(** ** The calls of [draw.text] *)

(** The second loop of [draw_justified_text] as the list of its
    [draw.text] calls: the position [(x, y)] and the line of each. *)
Fixpoint text_calls (P : Platform) (x0 max_width y step : Z) (font : Font)
    (lines : list string) : list (Q * Z * string) :=
  match lines with
  | [] => []
  | line :: rest =>
      ((inject_Z x0
        + Py.floordiv2 (inject_Z max_width - getlength P font line))%Q,
       y, line)
      :: text_calls P x0 max_width (y + step) step font rest
  end.

(** The warning that [load_font] prints for a candidate. *)
Definition font_warning (path : string) : event :=
  Printed ("Warning: could not load font at " ++ path)%string.

(** ** [bot.py] *)

(** What the command handler does with the interaction: [ctx.defer()],
    and [ctx.respond] with the text of an error or with a file.  The
    calls of the Discord library are taken to succeed. *)
Inductive reply : Type :=
  | ErrorReply (e : exn)
  | MemeReply (filename : string) (data : string).

Inductive interaction : Type :=
  | Deferred
  | Responded (r : reply).

Definition newline : string := String (Str.chr 10) EmptyString.

(** The f-string of [process_file]: a line break, the sentence indented
    by four spaces, a line break and four spaces. *)
Definition prompt_template (prompt : string) : string :=
  (newline ++ "    SABRINA CARPENTER DOES NOT KNOW HOW TO "
   ++ Str.upper prompt ++ newline ++ "    ")%string.

(** [process_file(ctx, prompt, file, font_size)], [file_bytes] being what
    [file.read()] returned.  Every exception of [make_meme] is caught. *)
Definition process_file (P : Platform) (prompt file_bytes : string)
    (font_size : Z) (w : World) : list interaction * World :=
  match make_meme P (FromBytes file_bytes) (prompt_template prompt)
          "output_meme.png" 750 923 font_size w with
  | (Ok generated_img, w') =>
      ([Deferred;
        Responded (MemeReply "meme.png" (encode_png P generated_img))], w')
  | (Err e, w') => ([Deferred; Responded (ErrorReply e)], w')
  end.

(** ** The script part of [make_meme.py] *)

Definition example_text : string :=
  "SABRINA CARPENTER DOES NOT KNOW HOW TO PRESS E".

Definition saved_message : string := "Saved meme to: generated_meme.png".

Definition not_found_message : string :=
  "Example failed because the example_user_image.png was not found. Call make_meme() with your image path and text.".

(** The block under [if __name__ == "__main__"]: only
    [FileNotFoundError] is caught. *)
Definition main (P : Platform) : M unit :=
  fun w =>
    match make_meme P (FromPath "user_image.png") example_text
            "generated_meme.png" 750 923 48 w with
    | (Ok _, w') => IO.print saved_message w'
    | (Err FileNotFoundError, w') => IO.print not_found_message w'
    | (Err e, w') => (Err e, w')
    end.

(** The paragraph of the caption that holds the sentence. *)
Definition bot_sentence (prompt : string) : string :=
  ("    SABRINA CARPENTER DOES NOT KNOW HOW TO " ++ Str.upper prompt)%string.

(** ** Notions used in the statements *)

Definition fails {A} (r : result A) : Prop := is_ok r = false.

(** Computations that leave the file system alone, whatever they
    return, and only add events; and computations that leave the files
    alone when they raise. *)
Definition keeps_fs {A} (c : M A) : Prop :=
  forall w, files (snd (c w)) = files w /\ dirs (snd (c w)) = dirs w
            /\ exists new, trace (snd (c w)) = trace w ++ new.

Definition raise_keeps_files {A} (c : M A) : Prop :=
  forall w e w', c w = (Err e, w') -> files w' = files w.

(** The effects of a call that returns the image [bg]: the PNG encoding
    of [bg] is the content of [out_path], the directories above it
    exist, and the last two events are the [mkdir] and the save. *)
Definition saved_effects (P : Platform) (out_path : string) (w : World)
    (bg : Image rgb) (w' : World) : Prop :=
  files w' = <[out_path := encode_png P bg]> (files w)
  /\ dirs w' = list_to_set (IO.ancestors out_path) ∪ dirs w
  /\ exists before,
       trace w' = trace w ++ before
                  ++ [MadeDirs (IO.ancestors out_path); Saved out_path].

Definition return_saves (P : Platform) (out_path : string)
    (c : M (Image rgb)) : Prop :=
  forall w bg w', c w = (Ok bg, w') -> saved_effects P out_path w bg w'.

(** A call on the demonstration host: the template and the user image
    are both found and fitted, and the caption is drawn. *)
Definition demo_run : result (Image rgb) * World :=
  make_meme Demo.no_fonts (FromBytes "portrait") "press e" "out/meme.png"
    750 923 36 Demo.world.

Definition demo_image : Image rgb :=
  match fst demo_run with
  | Ok bg => bg
  | Err _ => mkImage 0 0 (fun _ _ => black)
  end.

(** A caption of one paragraph: a unit separator, a space and a unit
    separator.  [str.strip] takes all three for whitespace, [textwrap]
    only the space. *)
Definition separators_caption : string :=
  Str.of_chars [Str.chr 31; Str.chr 32; Str.chr 31].

(** The character that [_munge_whitespace] puts for whitespace. *)
Definition space : ascii := Str.chr 32.

(** A paragraph that [textwrap] can lay out on one line: its text fits
    the width once the tabs are expanded, and if it is blank it is made
    of the whitespace that [textwrap] knows. *)
Definition fits_one_line (width : Z) (para : string) : Prop :=
  Textwrap.clen (Textwrap.munge_whitespace (Str.chars para)) <= width
  /\ (Str.is_blank para = true ->
      forallb Textwrap.is_ws (Str.chars para) = true).

(** What is left to wrap: the chunks and their characters. *)
Definition weight (chunks : list Textwrap.chunk) : nat :=
  (length chunks + length (concat chunks))%nat.

(** * Properties *)

(** ** The library models on sample values

    The expected values are those of CPython 3.11. *)

Example splitlines_sample :
  Str.splitlines
    (Str.of_chars (Str.chars "a" ++ [Str.chr 10; Str.chr 10]
                   ++ Str.chars "b" ++ [Str.chr 13; Str.chr 10]
                   ++ Str.chars "c d " ++ [Str.chr 10]))
  = ["a"; ""; "b"; "c d "].
Proof. reflexivity. Qed.

Example splitlines_empty : Str.splitlines "" = [].
Proof. reflexivity. Qed.

Example upper_sample : Str.upper "press e, twice!" = "PRESS E, TWICE!".
Proof. reflexivity. Qed.

Example strip_sample : Str.strip "  press e " = "press e".
Proof. reflexivity. Qed.

Example wrap_sample :
  Textwrap.wrap "Hello there -- you goof-ball, use the -b option!" 12
  = Ok ["Hello there"; "-- you goof-"; "ball, use"; "the -b"; "option!"].
Proof. vm_compute. reflexivity. Qed.

Example wrap_long_word :
  Textwrap.wrap "SABRINA CARPENTER" 5
  = Ok ["SABRI"; "NA CA"; "RPENT"; "ER"].
Proof. vm_compute. reflexivity. Qed.

Example wrap_blank : Textwrap.wrap "    " 10 = Ok [].
Proof. vm_compute. reflexivity. Qed.

Example wrap_bad_width : Textwrap.wrap "press e" 0 = Err ValueError.
Proof. reflexivity. Qed.

Example layout_sample :
  Py.int (inject_Z 923 * (56 # 100)) = 516 /\ (750 - 2 * 12 - 8) / 2 = 359.
Proof. split; reflexivity. Qed.

(** ** [int] and the floor *)



(** ** Pillow operations *)

Lemma new_ok {P} (w h : Z) (color : P) :
  0 <= w -> 0 <= h -> PIL.new w h color = Ok (mkImage w h (fun _ _ => color)).
Proof.
  intros Hw Hh. unfold PIL.new.
  destruct (w <? 0) eqn:E1; [lia|].
  destruct (h <? 0) eqn:E2; [lia|]. reflexivity.
Qed.

Lemma in_bounds_true {P} (im : Image P) (x y : Z) :
  in_bounds im x y = true <-> 0 <= x < width im /\ 0 <= y < height im.
Proof. unfold in_bounds. rewrite !andb_true_iff. lia. Qed.

Lemma in_bounds_false {P} (im : Image P) (x y : Z) :
  in_bounds im x y = false <-> ~ (0 <= x < width im /\ 0 <= y < height im).
Proof. rewrite <- in_bounds_true. destruct (in_bounds im x y); intuition congruence. Qed.

(** ** [fit_image] *)

(** C1: [fit_image] is to return an image of the box size for every
    source image of positive size.  A source of 400 by 1 pixels and the
    box of 359 by 516 that [make_meme] uses have [new_h = int(359 / 400.0)
    = 0], and [resize] raises [ValueError], whatever the host. *)
Theorem fit_image_thin_source_raises (P : Platform) (px : Z -> Z -> rgb) :
  fit_size 400 1 359 516 = Ok (359, 0)
  /\ fit_image P (mkImage 400 1 px) 359 516 = Err ValueError.
Proof. split; reflexivity. Qed.

(** What [fit_image] does when neither side of the scaled size is lost:
    the letterbox that the specification describes. *)

Lemma ratio_eq (a b : Z) :
  0 < b -> (inject_Z a / inject_Z b == a # Z.to_pos b)%Q.
Proof.
  intros Hb. destruct b as [|pb|pb]; try lia.
  symmetry. apply Qmake_Qdiv.
Qed.


Lemma ratio_gt (a b c d : Z) :
  0 < b -> 0 < d ->
  Py.gt (inject_Z a / inject_Z b) (inject_Z c / inject_Z d) = (c * b <? a * d).
Proof.
  intros Hb Hd. unfold Py.gt.
  destruct (Z.ltb_spec (c * b) (a * d)) as [Hlt|Hge].
  - apply negb_true_iff, not_true_iff_false. rewrite Qle_bool_iff.
    rewrite !ratio_eq by lia. unfold Qle. cbn. rewrite !Z2Pos.id by lia. lia.
  - apply negb_false_iff. rewrite Qle_bool_iff.
    rewrite !ratio_eq by lia. unfold Qle. cbn. rewrite !Z2Pos.id by lia. lia.
Qed.




(** ** The sticker effect *)

Lemma sticker_ok (right_fit : Image rgb) (col_w top_h : Z) :
  0 <= width right_fit -> 0 <= height right_fit ->
  0 <= col_w -> 0 <= top_h ->
  sticker right_fit col_w top_h =
    Ok (mkImage col_w top_h
          (fun px py =>
             let out :=
               PIL.paste
                 (mkImage (2 + width right_fit + 2) (2 + height right_fit + 2)
                    (fun _ _ => white)) right_fit 2 2 in
             if in_bounds out (px + 0) (py + 0)
             then getpixel out (px + 0) (py + 0) else black)).
Proof.
  intros Hw Hh Hc Ht. unfold sticker, PIL.expand.
  rewrite new_ok by lia. cbn [rbind]. unfold PIL.crop.
  destruct (col_w <? 0) eqn:E1; [lia|].
  destruct (top_h <? 0) eqn:E2; [lia|]. cbn [orb].
  rewrite !Z.sub_0_r. reflexivity.
Qed.

(** C2, as the code has it: after the border-then-crop step the image has
    the size of the box again, its two top rows and its two left columns
    are the white border, and every other pixel is the pixel of the
    fitted image two places up and to the left.  The fringe is on the top
    and the left edge; the right and the bottom edge show the fitted
    image, whose last two columns and rows are cut away. *)
Theorem sticker_fringe_top_left (right_fit : Image rgb) (col_w top_h : Z) :
  width right_fit = col_w -> height right_fit = top_h ->
  0 <= col_w -> 0 <= top_h ->
  exists out,
    sticker right_fit col_w top_h = Ok out
    /\ width out = col_w /\ height out = top_h
    /\ forall x y, 0 <= x < col_w -> 0 <= y < top_h ->
         getpixel out x y =
           if (x <? 2) || (y <? 2) then white
           else getpixel right_fit (x - 2) (y - 2).
Proof.
  intros Hw Hh Hc Ht. eexists. split.
  - apply sticker_ok; lia.
  - cbn [width height getpixel]. repeat split.
    intros x y Hx Hy. rewrite !Z.add_0_r.
    unfold PIL.paste at 1.
    rewrite (proj2 (in_bounds_true _ x y)) by (cbn [width height]; lia).
    unfold PIL.paste. cbn [getpixel].
    destruct (in_bounds right_fit (x - 2) (y - 2)) eqn:E.
    + apply in_bounds_true in E.
      destruct (Z.ltb_spec x 2), (Z.ltb_spec y 2); try lia. reflexivity.
    + apply in_bounds_false in E.
      destruct (Z.ltb_spec x 2), (Z.ltb_spec y 2); try reflexivity. lia.
Qed.

Lemma sticker_fringe_top_left_witness :
  exists out,
    sticker (PIL.convert_RGB (Demo.solid 6 4 (RGBA 9 9 9 255))) 6 4 = Ok out
    /\ width out = 6 /\ height out = 4
    /\ forall x y, 0 <= x < 6 -> 0 <= y < 4 ->
         getpixel out x y =
           if (x <? 2) || (y <? 2) then white
           else getpixel (PIL.convert_RGB (Demo.solid 6 4 (RGBA 9 9 9 255)))
                  (x - 2) (y - 2).
Proof.
  apply (sticker_fringe_top_left
           (PIL.convert_RGB (Demo.solid 6 4 (RGBA 9 9 9 255))) 6 4);
    [reflexivity | reflexivity | lia | lia].
Defined.

(** C2, as the specification words it, fails on a fitted image of 6 by 4
    dark pixels: the pixels of the top row and of the left column are
    white, while the right column and the bottom row, away from the
    top-left fringe, keep the colour of the fitted image. *)
Lemma sticker_fringe_not_right_bottom :
  exists out,
    sticker (PIL.convert_RGB (Demo.solid 6 4 (RGBA 9 9 9 255))) 6 4 = Ok out
    /\ getpixel out 3 0 = white      (* top edge *)
    /\ getpixel out 0 2 = white      (* left edge *)
    /\ getpixel out 5 2 = (9, 9, 9)  (* right edge *)
    /\ getpixel out 3 3 = (9, 9, 9)  (* bottom edge *)
    /\ getpixel out 5 3 = (9, 9, 9). (* bottom-right corner *)
Proof. eexists. split; [reflexivity|]. repeat split. Qed.

(** The sticker test holds exactly when no pixel is fully opaque: it
    compares the greatest alpha value of the image. *)
Lemma foldr_max_lt (l : list Z) (b : Z) :
  0 < b -> (foldr Z.max 0 l < b <-> Forall (fun a => a < b) l).
Proof.
  intros Hb. induction l as [|a l IH]; cbn [foldr].
  - split; [constructor | lia].
  - rewrite Forall_cons. rewrite <- IH. lia.
Qed.

Lemma wants_sticker_iff (right : Image rgba) :
  wants_sticker right = true
  <-> Forall (fun p => alpha p < 255) (PIL.pixels right).
Proof.
  unfold wants_sticker, PIL.alpha_extrema. cbn [snd].
  rewrite Z.ltb_lt, foldr_max_lt by lia.
  rewrite Forall_fmap. reflexivity.
Qed.

(** C3: an image with a transparent pixel is to get the sticker effect.
    [Demo.half_clear] has a pixel of alpha 0, but its other pixel is
    opaque, so the greatest alpha value is 255 and the test of the
    sticker branch is false: the fitted image is pasted as it is. *)
Theorem sticker_skipped_for_partly_transparent :
  Exists (fun p => alpha p < 255) (PIL.pixels Demo.half_clear)
  /\ PIL.alpha_extrema Demo.half_clear = (0, 255)
  /\ wants_sticker Demo.half_clear = false.
Proof.
  split; [|split; reflexivity].
  apply Exists_exists. exists (RGBA 10 20 30 0). split.
  - apply list_elem_of_In. left. reflexivity.
  - cbn. lia.
Qed.

(** ** [load_font] *)

Lemma load_font_from_spec (P : Platform) (cands : list string) (size : Z)
    (w : World) (default : Font) :
  load_default P size = Ok default ->
  exists font,
    fst (load_font_from P cands size w) = Ok font
    /\ ((exists before p after,
           cands = before ++ p :: after
           /\ Forall (fun q => fails (truetype P q size)) before
           /\ truetype P p size = Ok font)
        \/ (Forall (fun q => fails (truetype P q size)) cands
            /\ font = default)).
Proof.
  intros Hd. revert w. induction cands as [|p rest IH]; intros w.
  - exists default. cbn. rewrite Hd. split; [reflexivity|]. right. by split.
  - cbn [load_font_from]. destruct (truetype P p size) as [font|e] eqn:Ep.
    + exists font. split; [reflexivity|]. left. exists [], p, rest. by repeat split.
    + unfold mbind, IO.print, log.
      match goal with |- context [load_font_from P rest size ?w'] =>
        destruct (IH w') as (font & Hrun & Hwhich) end.
      exists font. split; [exact Hrun|].
      assert (fails (truetype P p size)) as Hp by (unfold fails; by rewrite Ep).
      destruct Hwhich as [(before & q & after & -> & Hb & Hq) | [Hall ->]].
      * left. exists (p :: before), q, after. repeat split; [|exact Hq].
        by constructor.
      * right. split; [by constructor | reflexivity].
Qed.

(** C8, as the code has it: at every size at which the default font of
    the host can be loaded, [load_font] returns a font and raises
    nothing: the first candidate that loads at that size, or the
    default font when no candidate loads. *)
Theorem load_font_falls_back (P : Platform) (size : Z) (w : World)
    (default : Font) :
  load_default P size = Ok default ->
  exists font,
    fst (load_font P size w) = Ok font
    /\ ((exists before p after,
           candidates = before ++ p :: after
           /\ Forall (fun q => fails (truetype P q size)) before
           /\ truetype P p size = Ok font)
        \/ (Forall (fun q => fails (truetype P q size)) candidates
            /\ font = default)).
Proof. apply load_font_from_spec. Qed.

Lemma load_font_falls_back_witness :
  exists font,
    fst (load_font Demo.no_fonts 36 Demo.world) = Ok font
    /\ ((exists before p after,
           candidates = before ++ p :: after
           /\ Forall (fun q => fails (truetype Demo.no_fonts q 36)) before
           /\ truetype Demo.no_fonts p 36 = Ok font)
        \/ (Forall (fun q => fails (truetype Demo.no_fonts q 36)) candidates
            /\ font = DefaultFont 36)).
Proof.
  apply (load_font_falls_back Demo.no_fonts 36 Demo.world (DefaultFont 36)).
  reflexivity.
Defined.

(** C8, as the specification words it, fails at the size 0 (and at
    every negative size): both candidates are refused and skipped, and
    the call of [load_default], which no handler guards, raises
    [ValueError] out of [load_font]. *)
Lemma load_font_raises_at_size_zero :
  fst (load_font Demo.no_fonts 0 Demo.world) = Err ValueError
  /\ fst (load_font Demo.no_fonts (-1) Demo.world) = Err ValueError.
Proof. split; reflexivity. Qed.

(** ** [draw_justified_text] *)

(** C10: for the empty caption the block has no line, no [draw.text]
    call is made, so the image is returned as it was, and the function
    returns normally for every host, image, box, font, fill colour and
    line spacing. *)
Theorem draw_justified_text_empty (P : Platform) (img : Image rgb)
    (box : Box) (font : Font) (fill : rgb) (line_spacing : Z) :
  (forall max_width, text_lines P font max_width "" = Ok [])
  /\ draw_justified_text P img box "" font fill line_spacing = Ok img.
Proof.
  split; [reflexivity|].
  destruct box as [[[x0 y0] x1] y1]. reflexivity.
Qed.

(** ** [make_meme]: the order of its effects *)

Lemma new_err_iff {P} (w h : Z) (color : P) :
  fails (PIL.new w h color) <-> ~ (0 <= w /\ 0 <= h).
Proof.
  unfold fails, PIL.new.
  destruct (Z.ltb_spec w 0), (Z.ltb_spec h 0); cbn; split; intros; try lia;
    try reflexivity; try discriminate.
Qed.

(** C6: when the template cannot be opened, every call fails, and it
    fails before the user image is touched: the only event the call can
    add is the opening of the template, and the files stay as they
    were.  The error is the one raised by opening the template whenever
    the background could be allocated, that is for every canvas size
    that is not negative. *)
Theorem make_meme_missing_template (P : Platform) (user : ImageSource)
    (text out_path : string) (canvas_w canvas_h font_size : Z)
    (w : World) (e : exn) :
  IO.read_image P (files w) (FromPath sabrina_path) = Err e ->
  exists e' w',
    make_meme P user text out_path canvas_w canvas_h font_size w = (Err e', w')
    /\ (0 <= canvas_w -> 0 <= canvas_h -> e' = e)
    /\ files w' = files w /\ dirs w' = dirs w
    /\ (trace w' = trace w
        \/ trace w' = trace w ++ [Opened (FromPath sabrina_path)]).
Proof.
  intros He. unfold make_meme. cbv zeta. unfold mbind at 1, lift at 1.
  destruct (PIL.new canvas_w canvas_h (220, 220, 220)) as [bg|e0] eqn:Hnew.
  - unfold mbind at 1. unfold IO.open_image, mbind at 1, log.
    cbn [files dirs trace]. rewrite He.
    eexists _, _. split; [reflexivity|]. cbn [files dirs trace].
    repeat split; auto.
  - eexists _, _. split; [reflexivity|]. repeat split; auto.
    intros Hw Hh. assert (fails (PIL.new canvas_w canvas_h (220, 220, 220)))
      as Hf by (unfold fails; by rewrite Hnew).
    apply new_err_iff in Hf. lia.
Qed.

Lemma make_meme_missing_template_witness :
  exists e' w',
    make_meme Demo.no_fonts (FromBytes "portrait") "press e" "meme.png"
      750 923 36 (mkWorld ∅ ∅ []) = (Err e', w')
    /\ (0 <= 750 -> 0 <= 923 -> e' = FileNotFoundError)
    /\ files w' = files (mkWorld ∅ ∅ []) /\ dirs w' = dirs (mkWorld ∅ ∅ [])
    /\ (trace w' = trace (mkWorld ∅ ∅ [])
        \/ trace w' = trace (mkWorld ∅ ∅ []) ++ [Opened (FromPath sabrina_path)]).
Proof.
  apply (make_meme_missing_template Demo.no_fonts (FromBytes "portrait")
           "press e" "meme.png" 750 923 36 (mkWorld ∅ ∅ []) FileNotFoundError).
  reflexivity.
Defined.

Lemma keeps_fs_lift {A} (r : result A) : keeps_fs (lift r).
Proof. intros w. repeat split. exists []. cbn. by rewrite app_nil_r. Qed.

Lemma keeps_fs_mret {A} (a : A) : keeps_fs (mret a).
Proof. intros w. repeat split. exists []. cbn. by rewrite app_nil_r. Qed.

Lemma keeps_fs_log (ev : event) : keeps_fs (log ev).
Proof. intros w. repeat split. by exists [ev]. Qed.

Lemma keeps_fs_bind {A B} (c : M A) (k : A -> M B) :
  keeps_fs c -> (forall a, keeps_fs (k a)) -> keeps_fs (mbind c k).
Proof.
  intros Hc Hk w. unfold mbind. specialize (Hc w).
  destruct (c w) as [[a|e] w1]; cbn [snd] in *; [|exact Hc].
  destruct Hc as (Hf & Hd & new & Ht).
  destruct (Hk a w1) as (-> & -> & new' & ->).
  repeat split; auto. exists (new ++ new'). by rewrite Ht, app_assoc.
Qed.

Lemma keeps_fs_open_image (P : Platform) (src : ImageSource) :
  keeps_fs (IO.open_image P src).
Proof.
  apply keeps_fs_bind; [apply keeps_fs_log|]. intros _ w.
  repeat split. exists []. cbn. by rewrite app_nil_r.
Qed.

Lemma keeps_fs_load_font_from (P : Platform) (cands : list string) (size : Z) :
  keeps_fs (load_font_from P cands size).
Proof.
  induction cands as [|p rest IH]; cbn [load_font_from].
  - apply keeps_fs_lift.
  - destruct (truetype P p size); [apply keeps_fs_mret|].
    apply keeps_fs_bind; [apply keeps_fs_log | intros _; exact IH].
Qed.

Lemma raise_keeps_bind {A B} (c : M A) (k : A -> M B) :
  keeps_fs c -> (forall a, raise_keeps_files (k a)) ->
  raise_keeps_files (mbind c k).
Proof.
  intros Hc Hk w e w'. unfold mbind. specialize (Hc w).
  destruct (c w) as [[a|e1] w1]; cbn [snd] in *; intros Hrun.
  - apply Hk in Hrun. rewrite Hrun. apply Hc.
  - inversion Hrun; subst. apply Hc.
Qed.

Lemma raise_keeps_save_steps (P : Platform) (bg : Image rgb) (out_path : string) :
  raise_keeps_files
    (IO.mkdir_parents out_path ;; IO.save P bg out_path ;; mret bg)%M.
Proof.
  intros w e w'. unfold mbind, IO.mkdir_parents, IO.save, mret.
  destruct (existsb _ _); [intros [= _ <-]; reflexivity|].
  cbn [dirs files]. destruct (bool_decide _); [|discriminate].
  intros [= _ <-]. reflexivity.
Qed.

(** The save comes last: a call of [make_meme] that raises, at whatever
    step, has written no file. *)
Lemma make_meme_failure_writes_nothing (P : Platform) (user : ImageSource)
    (text out_path : string) (canvas_w canvas_h font_size : Z) :
  raise_keeps_files
    (make_meme P user text out_path canvas_w canvas_h font_size).
Proof.
  unfold make_meme. cbv zeta.
  repeat (apply raise_keeps_bind;
          [first [ apply keeps_fs_lift | apply keeps_fs_open_image
                 | apply keeps_fs_load_font_from ]
          | intros ? ]).
  apply raise_keeps_save_steps.
Qed.

(** C7: when the user image cannot be decoded, the call fails and the
    file system is as it was before: no output file, whole or partial,
    and no directory.  The call stops at the opening of the user image,
    with the error of the decoder, whenever the two steps before it went
    through: the background was allocated and the template was opened
    (otherwise it has stopped there, earlier still).  The events it adds
    are openings of images only. *)
Theorem make_meme_bad_user_image (P : Platform) (user : ImageSource)
    (text out_path : string) (canvas_w canvas_h font_size : Z)
    (w : World) (e : exn) :
  IO.read_image P (files w) user = Err e ->
  exists e' w' opened,
    make_meme P user text out_path canvas_w canvas_h font_size w = (Err e', w')
    /\ (0 <= canvas_w -> 0 <= canvas_h ->
        is_ok (IO.read_image P (files w) (FromPath sabrina_path)) = true ->
        e' = e /\ opened = [FromPath sabrina_path; user])
    /\ files w' = files w /\ dirs w' = dirs w
    /\ trace w' = trace w ++ (Opened <$> opened).
Proof.
  intros He. unfold make_meme. cbv zeta. unfold mbind at 1, lift at 1.
  destruct (PIL.new canvas_w canvas_h (220, 220, 220)) as [bg|e0] eqn:Hnew.
  - unfold mbind at 1. unfold IO.open_image at 1, mbind at 1, log.
    cbn [files dirs trace].
    destruct (IO.read_image P (files w) (FromPath sabrina_path))
      as [sabrina|e1] eqn:Hs.
    + unfold mbind at 1. unfold IO.open_image at 1, mbind at 1, log.
      cbn [files dirs trace]. rewrite He.
      eexists e, _, [FromPath sabrina_path; user].
      split; [reflexivity|]. cbn [files dirs trace].
      repeat split; auto. by rewrite <- app_assoc.
    + eexists e1, _, [FromPath sabrina_path].
      split; [reflexivity|]. cbn [files dirs trace].
      repeat split; auto; discriminate.
  - exists e0, w, []. split; [reflexivity|]. repeat split; auto.
    + assert (fails (PIL.new canvas_w canvas_h (220, 220, 220)))
        as Hf by (unfold fails; by rewrite Hnew).
      apply new_err_iff in Hf. lia.
    + assert (fails (PIL.new canvas_w canvas_h (220, 220, 220)))
        as Hf by (unfold fails; by rewrite Hnew).
      apply new_err_iff in Hf. lia.
    + cbn. by rewrite app_nil_r.
Qed.

Lemma make_meme_bad_user_image_witness :
  exists e' w' opened,
    make_meme Demo.no_fonts (FromBytes "not an image") "x" "meme.png"
      750 923 36 Demo.world = (Err e', w')
    /\ (0 <= 750 -> 0 <= 923 ->
        is_ok (IO.read_image Demo.no_fonts (files Demo.world)
                 (FromPath sabrina_path)) = true ->
        e' = UnidentifiedImageError
        /\ opened = [FromPath sabrina_path; FromBytes "not an image"])
    /\ files w' = files Demo.world /\ dirs w' = dirs Demo.world
    /\ trace w' = trace Demo.world ++ (Opened <$> opened).
Proof.
  apply (make_meme_bad_user_image Demo.no_fonts (FromBytes "not an image")
           "x" "meme.png" 750 923 36 Demo.world UnidentifiedImageError).
  reflexivity.
Defined.

(** ** [make_meme]: what a call that succeeds leaves behind *)

Lemma return_saves_bind {A} (P : Platform) (out_path : string)
    (c : M A) (k : A -> M (Image rgb)) :
  keeps_fs c -> (forall a, return_saves P out_path (k a)) ->
  return_saves P out_path (mbind c k).
Proof.
  intros Hc Hk w bg w'. unfold mbind. specialize (Hc w).
  destruct (c w) as [[a|e1] w1]; cbn [snd] in *; intros Hrun; [|discriminate].
  destruct Hc as (Hf & Hd & new & Ht).
  destruct (Hk a _ _ _ Hrun) as (Hf' & Hd' & before & Ht').
  unfold saved_effects. rewrite Hf', Hd', Hf, Hd. repeat split.
  exists (new ++ before). by rewrite Ht', Ht, <- !app_assoc.
Qed.

Lemma return_saves_save_steps (P : Platform) (bg : Image rgb)
    (out_path : string) :
  return_saves P out_path
    (IO.mkdir_parents out_path ;; IO.save P bg out_path ;; mret bg)%M.
Proof.
  intros w bg' w'. unfold mbind, IO.mkdir_parents, IO.save, mret.
  destruct (existsb _ _); [discriminate|].
  cbn [dirs files trace]. destruct (bool_decide _); [discriminate|].
  intros [= <- <-]. unfold saved_effects. cbn [dirs files trace].
  repeat split. exists []. by rewrite <- !app_assoc.
Qed.

Lemma make_meme_return_saves (P : Platform) (user : ImageSource)
    (text out_path : string) (canvas_w canvas_h font_size : Z) :
  return_saves P out_path
    (make_meme P user text out_path canvas_w canvas_h font_size).
Proof.
  unfold make_meme. cbv zeta.
  repeat (apply return_saves_bind;
          [first [ apply keeps_fs_lift | apply keeps_fs_open_image
                 | apply keeps_fs_load_font_from ]
          | intros ? ]).
  apply return_saves_save_steps.
Qed.

(** C9, as the code has it: [make_meme] itself encodes the canvas and
    saves it.  After a call that returns the image [bg], the file
    [out_path] holds the PNG encoding of [bg], the directories above it
    have been made, and the call ends with these two steps; the other
    files are as before. *)
Theorem make_meme_saves_png (P : Platform) (user : ImageSource)
    (text out_path : string) (canvas_w canvas_h font_size : Z)
    (w w' : World) (bg : Image rgb) :
  make_meme P user text out_path canvas_w canvas_h font_size w = (Ok bg, w') ->
  files w' !! out_path = Some (encode_png P bg)
  /\ (forall p, p <> out_path -> files w' !! p = files w !! p)
  /\ dirs w' = list_to_set (IO.ancestors out_path) ∪ dirs w
  /\ exists before,
       trace w' = trace w ++ before
                  ++ [MadeDirs (IO.ancestors out_path); Saved out_path].
Proof.
  intros Hrun. apply make_meme_return_saves in Hrun.
  destruct Hrun as (Hf & Hd & Ht). rewrite Hf. repeat split; auto.
  - apply lookup_insert_eq.
  - intros p Hp. by apply lookup_insert_ne.
Qed.


Lemma demo_run_ok : is_ok (fst demo_run) = true.
Proof. vm_compute. reflexivity. Qed.

Lemma demo_run_eq :
  make_meme Demo.no_fonts (FromBytes "portrait") "press e" "out/meme.png"
    750 923 36 Demo.world = (Ok demo_image, snd demo_run).
Proof.
  generalize demo_run_ok. unfold demo_image. fold demo_run.
  destruct demo_run as [[bg|e] w']; cbn [fst snd]; [reflexivity | discriminate].
Defined.

Lemma make_meme_saves_png_witness :
  files (snd demo_run) !! "out/meme.png"
    = Some (encode_png Demo.no_fonts demo_image)
  /\ (forall p, p <> "out/meme.png" ->
        files (snd demo_run) !! p = files Demo.world !! p)
  /\ dirs (snd demo_run)
     = list_to_set (IO.ancestors "out/meme.png") ∪ dirs Demo.world
  /\ exists before,
       trace (snd demo_run) = trace Demo.world ++ before
         ++ [MadeDirs (IO.ancestors "out/meme.png"); Saved "out/meme.png"].
Proof.
  exact (make_meme_saves_png Demo.no_fonts (FromBytes "portrait") "press e"
           "out/meme.png" 750 923 36 Demo.world (snd demo_run) demo_image
           demo_run_eq).
Defined.

(** C9, as the specification words it, fails on the demonstration host:
    the call succeeds, and afterwards a file [out/meme.png] that did not
    exist holds encoded image data and a directory [out] has been
    made. *)
Lemma make_meme_changes_file_system :
  is_ok (fst demo_run) = true
  /\ files Demo.world !! "out/meme.png" = None
  /\ files (snd demo_run) !! "out/meme.png" = Some "PNG"
  /\ "out" ∈ dirs (snd demo_run)
  /\ files (snd demo_run) <> files Demo.world.
Proof.
  destruct (make_meme_return_saves Demo.no_fonts (FromBytes "portrait")
              "press e" "out/meme.png" 750 923 36 Demo.world demo_image
              (snd demo_run) demo_run_eq)
    as (Hf & Hd & _).
  assert (files Demo.world !! "out/meme.png" = None) as Hold
    by (apply lookup_singleton_ne; discriminate).
  assert (files (snd demo_run) !! "out/meme.png" = Some "PNG") as Hnew
    by (rewrite Hf; apply lookup_insert_eq).
  split; [apply demo_run_ok|]. split; [exact Hold|]. split; [exact Hnew|].
  split.
  - rewrite Hd. apply elem_of_union_l. apply elem_of_list_to_set.
    change (IO.ancestors "out/meme.png") with ["out"]. left.
  - intros Heq. rewrite Heq, Hold in Hnew. discriminate Hnew.
Qed.

(** ** [make_meme]: the raster of a call that succeeds *)

Lemma mbind_ok {A B} (c : M A) (k : A -> M B) (w w' : World) (b : B) :
  mbind c k w = (Ok b, w') ->
  exists a w1, c w = (Ok a, w1) /\ k a w1 = (Ok b, w').
Proof.
  unfold mbind. destruct (c w) as [[a|e] w1]; [|discriminate]. eauto.
Qed.

Lemma lift_ok {A} (r : result A) (w w' : World) (a : A) :
  lift r w = (Ok a, w') -> r = Ok a /\ w' = w.
Proof. unfold lift. by intros [= -> ->]. Qed.


(** ** [make_meme] on a valid image that is very wide *)

Lemma fit_image_strip_raises (P : Platform) (img : Image rgb) :
  width img = 400 -> height img = 1 ->
  fit_image P img 359 516 = Err ValueError.
Proof.
  intros Hw Hh. unfold fit_image. rewrite Hw, Hh.
  change (fit_size 400 1 359 516) with (@Ok (Z * Z) (359, 0)).
  cbn [rbind]. unfold PIL.resize. rewrite Hw, Hh. reflexivity.
Qed.

(** C4: with the canvas of 750 by 923 every valid user image is to give
    a raster of that size.  The columns are then 359 by 516 pixels, and a
    valid user image of 400 by 1 pixels makes the call raise
    [ValueError] in [fit_image], after the template was fitted without
    error: no raster is returned.  (The defect is the one of C1.) *)
Theorem make_meme_raises_on_strip (P : Platform) (user : ImageSource)
    (text out_path : string) (font_size : Z) (w : World)
    (sabrina right : Image rgba) :
  IO.read_image P (files w) (FromPath sabrina_path) = Ok sabrina ->
  is_ok (fit_image P (PIL.convert_RGB sabrina) 359 516) = true ->
  IO.read_image P (files w) user = Ok right ->
  width right = 400 -> height right = 1 ->
  fst (make_meme P user text out_path 750 923 font_size w) = Err ValueError.
Proof.
  intros Hs Hfit Hr Hw Hh. unfold make_meme. cbv zeta.
  change (Py.int (inject_Z 923 * (56 # 100))) with 516.
  change ((750 - 2 * 12 - 8) / 2) with 359.
  unfold mbind at 1, lift at 1. cbn [PIL.new Z.ltb Z.compare orb].
  unfold mbind at 1. unfold IO.open_image at 1, mbind at 1, log.
  cbn [files dirs trace]. rewrite Hs.
  unfold mbind at 1. unfold IO.open_image at 1, mbind at 1, log.
  cbn [files dirs trace]. rewrite Hr.
  unfold mbind at 1, lift at 1.
  destruct (fit_image P (PIL.convert_RGB sabrina) 359 516) as [left_fit|e];
    [|discriminate].
  unfold mbind at 1, lift at 1.
  rewrite fit_image_strip_raises by assumption. reflexivity.
Qed.

Lemma make_meme_raises_on_strip_witness :
  fst (make_meme Demo.no_fonts (FromBytes "strip") "press e" "meme.png"
         750 923 36 Demo.world) = Err ValueError.
Proof.
  apply (make_meme_raises_on_strip Demo.no_fonts (FromBytes "strip")
           "press e" "meme.png" 36 Demo.world
           (Demo.solid 30 40 (RGBA 200 0 0 255))
           (Demo.solid 400 1 (RGBA 0 200 0 255))).
  - unfold IO.read_image, Demo.world. cbn [files].
    rewrite lookup_singleton_eq. reflexivity.
  - vm_compute. reflexivity.
  - reflexivity.
  - reflexivity.
  - reflexivity.
Defined.

(** ** The lines of the text block *)


Lemma est_chars_per_line_pos (P : Platform) (font : Font) (max_width : Z) :
  1 <= est_chars_per_line P font max_width.
Proof. unfold est_chars_per_line. lia. Qed.

(** *** The rounds of [_wrap_chunks] end *)

Lemma weight_app (a b : list Textwrap.chunk) :
  weight (a ++ b) = (weight a + weight b)%nat.
Proof. unfold weight. rewrite concat_app, !length_app. lia. Qed.

Lemma fill_spec (width : Z) (chunks cur_line : list Textwrap.chunk) (cur_len : Z) :
  exists taken rest,
    Textwrap.fill width cur_line cur_len chunks
    = (cur_line ++ taken, cur_len + Textwrap.clen (concat taken), rest)
    /\ chunks = taken ++ rest
    /\ match rest with
       | c :: _ => width < cur_len + Textwrap.clen (concat taken) + Textwrap.clen c
       | [] => True
       end.
Proof.
  revert cur_line cur_len.
  induction chunks as [|c chunks IH]; intros cur_line cur_len.
  - exists [], []. cbn. by rewrite app_nil_r, Z.add_0_r.
  - cbn [Textwrap.fill].
    destruct (Z.leb_spec (cur_len + Textwrap.clen c) width) as [Hfit|Hno].
    + destruct (IH (cur_line ++ [c]) (cur_len + Textwrap.clen c))
        as (taken & rest & Hfill & -> & Hrest).
      exists (c :: taken), rest. rewrite Hfill.
      assert (Textwrap.clen (concat (c :: taken))
              = Textwrap.clen c + Textwrap.clen (concat taken)) as Hlen.
      { unfold Textwrap.clen. cbn [concat]. rewrite length_app. lia. }
      rewrite Hlen, <- app_assoc. cbn [app]. repeat split.
      * f_equal. f_equal. lia.
      * destruct rest; [done|]. lia.
    + exists [], (c :: chunks). cbn. rewrite app_nil_r, Z.add_0_r.
      repeat split. lia.
Qed.

Lemma handle_long_word_weight (width : Z) (cur_line : list Textwrap.chunk)
    (cur_len : Z) (c : Textwrap.chunk) (rest : list Textwrap.chunk) :
  (weight (snd (Textwrap.handle_long_word width cur_line cur_len (c :: rest)))
   <= weight (c :: rest))%nat
  /\ (cur_len = 0 -> 1 <= width -> width < Textwrap.clen c ->
      (weight (snd (Textwrap.handle_long_word width cur_line cur_len (c :: rest)))
       < weight (c :: rest))%nat).
Proof.
  unfold Textwrap.handle_long_word. cbn [snd].
  set (space_left := if width <? 1 then 1 else width - cur_len).
  set (hyphen := Textwrap.rfind_hyphen c space_left).
  match goal with |- context [if ?b then hyphen + 1 else space_left] =>
    set (cond := b); set (stop := if cond then hyphen + 1 else space_left) end.
  unfold weight. cbn [length concat]. rewrite !length_app, length_drop.
  split; [lia|]. intros -> Hw Hlong.
  assert (1 <= stop) as Hstop.
  { subst stop space_left. destruct (Z.ltb_spec width 1); [lia|].
    destruct cond eqn:E; [|lia]. subst cond.
    apply andb_true_iff in E as [E _]. apply andb_true_iff in E as [_ E]. lia. }
  unfold Textwrap.clen in Hlong. lia.
Qed.

Lemma wrap_rounds_fuel (width : Z) (fuel fuel' : nat) (have_lines : bool)
    (chunks : list Textwrap.chunk) :
  1 <= width ->
  (weight chunks < fuel)%nat -> (weight chunks < fuel')%nat ->
  Textwrap.wrap_rounds fuel width have_lines chunks
  = Textwrap.wrap_rounds fuel' width have_lines chunks.
Proof.
  intros Hw. revert fuel' have_lines chunks.
  induction fuel as [|fuel IH]; intros fuel' have_lines chunks Hf Hf'; [lia|].
  destruct fuel' as [|fuel']; [lia|].
  destruct chunks as [|first rest]; [reflexivity|].
  cbn [Textwrap.wrap_rounds].
  set (chunks1 := if Textwrap.chunk_blank first && have_lines
                  then rest else first :: rest).
  assert (weight chunks1 <= weight (first :: rest))%nat as H1.
  { subst chunks1. destruct (Textwrap.chunk_blank first && have_lines); [|lia].
    unfold weight. cbn [length concat].
    rewrite length_app. lia. }
  destruct (fill_spec width chunks1 [] 0) as (taken & chunks2 & -> & Hsplit & Hstop).
  cbn [app]. rewrite Z.add_0_l in *.
  assert (exists cur_line1 chunks3,
            match chunks2 with
            | [] => (taken, chunks2)
            | c :: _ =>
                if width <? Textwrap.clen c
                then Textwrap.handle_long_word width taken
                       (Textwrap.clen (concat taken)) chunks2
                else (taken, chunks2)
            end = (cur_line1, chunks3)
            /\ (weight chunks3 < weight (first :: rest))%nat)
    as (cur_line1 & chunks3 & -> & Hlt).
  { rewrite Hsplit, weight_app in H1. destruct chunks2 as [|c r].
    - exists taken, []. split; [done|]. unfold weight. cbn. lia.
    - destruct taken as [|t taken].
      + (* nothing fitted: the chunk is longer than a line *)
        cbn [concat] in *. change (Textwrap.clen []) with 0 in *.
        destruct (Z.ltb_spec width (Textwrap.clen c)); [|lia].
        destruct (handle_long_word_weight width [] 0 c r) as [_ Hstrict].
        specialize (Hstrict eq_refl Hw ltac:(lia)).
        destruct (Textwrap.handle_long_word width [] 0 (c :: r)) as [l3 c3].
        exists l3, c3. split; [done|]. cbn [snd] in Hstrict. cbn [weight] in H1. lia.
      + assert (1 <= weight (t :: taken))%nat by (unfold weight; cbn; lia).
        destruct (width <? Textwrap.clen c).
        * destruct (handle_long_word_weight width (t :: taken)
                      (Textwrap.clen (concat (t :: taken))) c r) as [Hle _].
          destruct (Textwrap.handle_long_word width (t :: taken) _ (c :: r))
            as [l3 c3].
          exists l3, c3. split; [done|]. cbn [snd] in Hle. lia.
        * exists (t :: taken), (c :: r). split; [done|]. lia. }
  destruct (Textwrap.drop_trailing_blank cur_line1).
  - apply IH; lia.
  - f_equal. apply IH; lia.
Qed.

(** The bound on the rounds is enough: more fuel changes nothing. *)
Lemma wrap_chunks_any_fuel (width : Z) (chunks : list Textwrap.chunk)
    (fuel : nat) :
  (Textwrap.rounds_bound chunks <= fuel)%nat ->
  Textwrap.wrap_chunks width chunks
  = if width <=? 0 then Err ValueError
    else Ok (Textwrap.wrap_rounds fuel width false chunks).
Proof.
  intros Hfuel. unfold Textwrap.wrap_chunks.
  destruct (Z.leb_spec width 0); [reflexivity|]. f_equal.
  unfold Textwrap.rounds_bound in *.
  apply wrap_rounds_fuel; unfold weight; lia.
Qed.

(** Chunks that fit on one line together give one line, or none when
    nothing but a blank chunk is left of them. *)
Lemma fill_all (width : Z) (chunks cur_line : list Textwrap.chunk) (cur_len : Z) :
  cur_len + Textwrap.clen (concat chunks) <= width ->
  Textwrap.fill width cur_line cur_len chunks
  = (cur_line ++ chunks, cur_len + Textwrap.clen (concat chunks), []).
Proof.
  revert cur_line cur_len.
  induction chunks as [|c rest IH]; intros cur_line cur_len Hfit.
  - cbn. by rewrite app_nil_r, Z.add_0_r.
  - cbn [Textwrap.fill concat] in *. unfold Textwrap.clen in *.
    rewrite length_app, Nat2Z.inj_add in Hfit.
    destruct (Z.leb_spec (cur_len + Z.of_nat (length c)) width); [|lia].
    rewrite IH by lia. rewrite <- app_assoc, length_app, Nat2Z.inj_add.
    f_equal. f_equal. lia.
Qed.

Lemma wrap_rounds_one_line (fuel : nat) (width : Z)
    (chunks : list Textwrap.chunk) :
  Textwrap.clen (concat chunks) <= width ->
  Textwrap.wrap_rounds (S fuel) width false chunks
  = match chunks with
    | [] => []
    | _ => match Textwrap.drop_trailing_blank chunks with
           | [] => []
           | line => [Str.of_chars (concat line)]
           end
    end.
Proof.
  intros Hfit. destruct chunks as [|first rest]; [reflexivity|].
  cbn [Textwrap.wrap_rounds]. rewrite andb_false_r.
  rewrite fill_all by (rewrite Z.add_0_l; exact Hfit).
  cbn [app]. destruct (Textwrap.drop_trailing_blank (first :: rest));
    destruct fuel; reflexivity.
Qed.

Lemma wrap_separators (width : Z) :
  3 <= width ->
  Textwrap.wrap separators_caption width
  = Ok [Str.of_chars [Str.chr 31; Str.chr 32]].
Proof.
  intros Hw. unfold Textwrap.wrap, Textwrap.wrap_chunks.
  destruct (Z.leb_spec width 0); [lia|].
  change (Textwrap.split (Textwrap.munge_whitespace (Str.chars separators_caption)))
    with [[Str.chr 31]; [Str.chr 32]; [Str.chr 31]].
  unfold Textwrap.rounds_bound. rewrite wrap_rounds_one_line; [reflexivity|].
  exact Hw.
Qed.

(** C5: a caption whose paragraphs fit the wrap width is to give as many
    lines as it has paragraphs, a blank paragraph giving one blank line.
    [separators_caption] is one paragraph of three characters, blank for
    the test of the loop; at every wrap width of three or more [textwrap]
    returns a line for it and the loop adds a blank line: two lines. *)
Theorem blank_paragraph_gives_two_lines (P : Platform) (font : Font)
    (max_width : Z) :
  3 <= est_chars_per_line P font max_width ->
  Str.splitlines separators_caption = [separators_caption]
  /\ Str.len separators_caption = 3
  /\ Str.is_blank separators_caption = true
  /\ text_lines P font max_width separators_caption
     = Ok [Str.of_chars [Str.chr 31; Str.chr 32]; ""].
Proof.
  intros Hw. repeat split.
  unfold text_lines.
  change (Str.splitlines separators_caption) with [separators_caption].
  cbn [wrap_paragraphs]. rewrite wrap_separators by exact Hw.
  reflexivity.
Qed.

Lemma blank_paragraph_gives_two_lines_witness :
  Str.splitlines separators_caption = [separators_caption]
  /\ Str.len separators_caption = 3
  /\ Str.is_blank separators_caption = true
  /\ text_lines Demo.no_fonts (DefaultFont 36) 710 separators_caption
     = Ok [Str.of_chars [Str.chr 31; Str.chr 32]; ""].
Proof.
  apply (blank_paragraph_gives_two_lines Demo.no_fonts (DefaultFont 36) 710).
  vm_compute. discriminate.
Defined.

(** ** Captions whose paragraphs fit *)

(** *** Blank strings *)

Lemma lstrip_nil_iff (l : list ascii) :
  Str.lstrip_chars l = [] <-> forallb Str.isspace l = true.
Proof.
  induction l as [|c l IH]; cbn; [done|].
  destruct (Str.isspace c); cbn; [exact IH | split; discriminate].
Qed.

Lemma lstrip_head (l : list ascii) (c : ascii) (l' : list ascii) :
  Str.lstrip_chars l = c :: l' -> Str.isspace c = false.
Proof.
  induction l as [|a l IH]; cbn; [discriminate|].
  destruct (Str.isspace a) eqn:Ea; [exact IH|]. by intros [= <- _].
Qed.

Lemma forallb_rev {A} (f : A -> bool) (l : list A) :
  forallb f (rev l) = forallb f l.
Proof.
  induction l as [|a l IH]; [done|]. cbn.
  rewrite forallb_app, IH. cbn. rewrite andb_true_r. apply andb_comm.
Qed.

Lemma strip_nil_iff (l : list ascii) :
  Str.strip_chars l = [] <-> forallb Str.isspace l = true.
Proof.
  unfold Str.strip_chars. split.
  - intros H. apply (f_equal (@rev ascii)) in H. rewrite rev_involutive in H.
    cbn in H. apply lstrip_nil_iff in H. rewrite forallb_rev in H.
    destruct (Str.lstrip_chars l) as [|c l'] eqn:E.
    + by apply lstrip_nil_iff.
    + apply lstrip_head in E. cbn in H. by rewrite E in H.
  - intros H. apply lstrip_nil_iff in H. by rewrite H.
Qed.

Lemma of_chars_nil_iff (l : list ascii) : Str.of_chars l = "" <-> l = [].
Proof. destruct l; cbn; split; congruence. Qed.

Lemma is_blank_iff (s : string) :
  Str.is_blank s = true <-> forallb Str.isspace (Str.chars s) = true.
Proof.
  unfold Str.is_blank, Str.strip. rewrite <- strip_nil_iff.
  destruct (Str.strip_chars (Str.chars s)); cbn; split; congruence.
Qed.

Lemma chunk_blank_iff (c : Textwrap.chunk) :
  Textwrap.chunk_blank c = true <-> forallb Str.isspace c = true.
Proof.
  unfold Textwrap.chunk_blank. rewrite <- strip_nil_iff.
  destruct (Str.strip_chars c); split; congruence.
Qed.

Lemma is_ws_isspace (c : ascii) : Textwrap.is_ws c = true -> Str.isspace c = true.
Proof.
  unfold Textwrap.is_ws, Str.isspace. intros H.
  apply orb_true_iff in H as [H|H]; rewrite H; cbn; [done|].
  by rewrite !orb_true_r.
Qed.

(** *** [_munge_whitespace] *)

Lemma expandtabs_all_ws (col : Z) (l : list ascii) :
  forallb Textwrap.is_ws l = true ->
  forallb Textwrap.is_ws (Textwrap.expandtabs_from col l) = true.
Proof.
  revert col. induction l as [|c l IH]; intros col; cbn; [done|].
  intros H. apply andb_true_iff in H as [Hc Hl].
  destruct (Str.code c =? 9).
  - rewrite forallb_app, IH by done. rewrite andb_true_r.
    generalize (Z.to_nat (8 - col `mod` 8)). intros n.
    induction n; cbn; [done|]. exact IHn.
  - cbn. by rewrite Hc, IH.
Qed.

Lemma expandtabs_nonempty (col : Z) (l : list ascii) :
  l <> [] -> Textwrap.expandtabs_from col l <> [].
Proof.
  destruct l as [|c l]; [done|]. intros _. cbn.
  destruct (Str.code c =? 9); [|done].
  pose proof (Z.mod_pos_bound col 8 ltac:(lia)).
  destruct (Z.to_nat (8 - col `mod` 8)) eqn:E; [lia|]. done.
Qed.

Lemma expandtabs_keeps (col : Z) (l : list ascii) (c : ascii) :
  In c l -> Str.code c <> 9 -> In c (Textwrap.expandtabs_from col l).
Proof.
  revert col. induction l as [|a l IH]; intros col; cbn; [done|].
  intros [->|Hin] Hc.
  - destruct (Z.eqb_spec (Str.code c) 9); [done|]. by left.
  - destruct (Str.code a =? 9).
    + apply in_or_app. right. by apply IH.
    + right. by apply IH.
Qed.

Lemma munge_all_ws (l : list ascii) :
  forallb Textwrap.is_ws l = true ->
  Textwrap.munge_whitespace l
  = repeat space (length (Textwrap.munge_whitespace l)).
Proof.
  intros H. unfold Textwrap.munge_whitespace.
  apply (expandtabs_all_ws 0) in H.
  induction (Textwrap.expandtabs_from 0 l) as [|c m IH]; cbn; [done|].
  cbn in H. apply andb_true_iff in H as [Hc Hm].
  rewrite Hc. f_equal. by apply IH.
Qed.

Lemma munge_nonempty (l : list ascii) :
  l <> [] -> Textwrap.munge_whitespace l <> [].
Proof.
  intros H. apply (expandtabs_nonempty 0) in H. unfold Textwrap.munge_whitespace.
  by destruct (Textwrap.expandtabs_from 0 l).
Qed.

Lemma munge_not_blank (l : list ascii) :
  forallb Str.isspace l = false ->
  forallb Str.isspace (Textwrap.munge_whitespace l) = false.
Proof.
  intros H. apply not_true_iff_false. intros Hall.
  apply not_true_iff_false in H. apply H. clear H.
  apply forallb_forall. intros c Hc.
  destruct (Str.isspace c) eqn:Ec; [done|].
  assert (Textwrap.is_ws c = false) as Hws.
  { destruct (Textwrap.is_ws c) eqn:E; [|done].
    apply is_ws_isspace in E. congruence. }
  assert (Str.code c <> 9) as H9.
  { intros E9. unfold Str.isspace, Str.between in Ec. rewrite E9 in Ec.
    discriminate. }
  rewrite forallb_forall in Hall. rewrite <- Ec. apply Hall.
  unfold Textwrap.munge_whitespace. apply in_map_iff. exists c.
  rewrite Hws. split; [done|]. by apply expandtabs_keeps.
Qed.

(** *** [_split] *)

Lemma take_drop_length_lt {A} (n : nat) (l : list A) :
  (1 <= n)%nat -> l <> [] -> (length (drop n l) < length l)%nat.
Proof. intros Hn Hl. rewrite length_drop. destruct l; [done|]. cbn. lia. Qed.

Lemma emdash_hyphens (back l : list ascii) :
  Textwrap.emdash_here back l = true -> (2 <= Textwrap.hyphen_run l)%nat.
Proof.
  unfold Textwrap.emdash_here. destruct back; [discriminate|].
  intros H. apply andb_true_iff in H as [H _].
  apply andb_true_iff in H as [_ H]. by apply Nat.leb_le in H.
Qed.

Lemma next_chunk_len_pos (back l : list ascii) :
  l <> [] -> (1 <= Textwrap.next_chunk_len back l)%nat.
Proof.
  destruct l as [|c l]; [done|]. intros _. unfold Textwrap.next_chunk_len.
  destruct (Textwrap.is_ws c) eqn:Ec.
  - cbn. rewrite Ec. lia.
  - destruct (Textwrap.emdash_here back (c :: l)) eqn:Ee; [|lia].
    apply emdash_hyphens in Ee. lia.
Qed.

Lemma concat_split_from (fuel : nat) (back l : list ascii) :
  (length l <= fuel)%nat -> concat (Textwrap.split_from fuel back l) = l.
Proof.
  revert back l. induction fuel as [|fuel IH]; intros back l Hlen.
  - destruct l; [done | cbn in Hlen; lia].
  - destruct l as [|c l]; [done|]. cbn [Textwrap.split_from concat].
    rewrite IH; [apply take_drop|].
    pose proof (next_chunk_len_pos back (c :: l) ltac:(done)).
    pose proof (take_drop_length_lt (Textwrap.next_chunk_len back (c :: l))
                  (c :: l) ltac:(lia) ltac:(done)).
    cbn [length] in *. lia.
Qed.

Lemma concat_split (l : list ascii) : concat (Textwrap.split l) = l.
Proof. by apply concat_split_from. Qed.

Lemma ws_run_repeat (n : nat) : Textwrap.ws_run (repeat space n) = n.
Proof.
  induction n; [done|]. cbn [repeat Textwrap.ws_run].
  change (Textwrap.is_ws space) with true. cbn iota. by rewrite IHn.
Qed.

Lemma split_spaces (n : nat) :
  Textwrap.split (repeat space (S n)) = [repeat space (S n)].
Proof.
  unfold Textwrap.split. rewrite repeat_length.
  cbn [Textwrap.split_from repeat].
  change (Textwrap.next_chunk_len [] (space :: repeat space n))
    with (S (Textwrap.ws_run (repeat space n))).
  rewrite ws_run_repeat. cbn [take drop].
  rewrite take_ge, drop_ge by (rewrite repeat_length; lia).
  by destruct n.
Qed.

(** *** One paragraph, one line *)

Lemma drop_trailing_blank_keeps (chunks : list Textwrap.chunk) :
  forallb Str.isspace (concat chunks) = false ->
  Textwrap.drop_trailing_blank chunks <> [].
Proof.
  intros Hnb. unfold Textwrap.drop_trailing_blank.
  destruct (rev chunks) as [|c before] eqn:Erev.
  - apply (f_equal (@rev _)) in Erev. rewrite rev_involutive in Erev.
    subst chunks. discriminate.
  - apply (f_equal (@rev _)) in Erev. rewrite rev_involutive in Erev.
    cbn in Erev. destruct (Textwrap.chunk_blank c) eqn:Ec.
    + intros Hnil. rewrite Hnil in Erev. cbn in Erev. subst chunks.
      cbn in Hnb. rewrite app_nil_r in Hnb.
      apply chunk_blank_iff in Ec. congruence.
    + subst chunks. by destruct (rev before).
Qed.

Lemma paragraph_one_line (width : Z) (para : string) :
  1 <= width -> fits_one_line width para ->
  exists wrapped,
    Textwrap.wrap para width = Ok wrapped
    /\ length (wrapped ++ (if Str.is_blank para then [""] else [])) = 1%nat
    /\ (Str.is_blank para = true -> wrapped = []).
Proof.
  intros Hw [Hfit Hblank]. unfold Textwrap.wrap, Textwrap.wrap_chunks.
  destruct (Z.leb_spec width 0); [lia|]. unfold Textwrap.rounds_bound.
  rewrite wrap_rounds_one_line by (by rewrite concat_split).
  eexists. split; [reflexivity|].
  destruct (Str.is_blank para) eqn:Eb.
  - specialize (Hblank eq_refl). rewrite (munge_all_ws _ Hblank).
    destruct (length (Textwrap.munge_whitespace (Str.chars para))) as [|n].
    + by repeat split.
    + rewrite split_spaces.
      assert (Textwrap.drop_trailing_blank [repeat space (S n)] = []) as ->.
      { unfold Textwrap.drop_trailing_blank. cbn [rev app].
        assert (Textwrap.chunk_blank (repeat space (S n)) = true) as ->; [|done].
        apply chunk_blank_iff. apply forallb_forall.
        intros c Hc. apply repeat_spec in Hc. by subst c. }
      by repeat split.
  - assert (forallb Str.isspace (Str.chars para) = false) as Hnb.
    { apply not_true_iff_false. intros Hsp. apply is_blank_iff in Hsp. congruence. }
    apply munge_not_blank in Hnb.
    rewrite <- (concat_split (Textwrap.munge_whitespace (Str.chars para))) in Hnb.
    pose proof (drop_trailing_blank_keeps _ Hnb) as Hkeep.
    destruct (Textwrap.split (Textwrap.munge_whitespace (Str.chars para)))
      as [|c chunks] eqn:Es; [discriminate|].
    destruct (Textwrap.drop_trailing_blank (c :: chunks)); [done|].
    split; [done | discriminate].
Qed.



(** * Further properties of the code *)

(** ** [fit_image] *)









Lemma fit_image_zero_division (P : Platform) (img : Image rgb)
    (box_w box_h : Z) :
  height img = 0 \/ box_h = 0 ->
  fit_image P img box_w box_h = Err ZeroDivisionError.
Proof.
  intros Hzero. unfold fit_image, fit_size, Py.truediv.
  destruct (Z.eqb_spec (height img) 0) as [|Hh]; [reflexivity|]. cbn [rbind].
  destruct (Z.eqb_spec box_h 0) as [|Hb]; [reflexivity|]. lia.
Qed.

(** X4: an image without height, or a box without height, makes
    [fit_image] raise [ZeroDivisionError] in the computation of the two
    ratios, before anything is resized. *)
Theorem fit_image_zero_height (P : Platform) (img : Image rgb)
    (box_w box_h : Z) :
  height img = 0 \/ box_h = 0 ->
  fit_image P img box_w box_h = Err ZeroDivisionError.
Proof. apply fit_image_zero_division. Qed.

Lemma fit_image_zero_height_witness :
  fit_image Demo.no_fonts
    (PIL.convert_RGB (Demo.solid 30 40 (RGBA 200 0 0 255))) 359 0
  = Err ZeroDivisionError.
Proof.
  apply (fit_image_zero_height Demo.no_fonts
           (PIL.convert_RGB (Demo.solid 30 40 (RGBA 200 0 0 255))) 359 0).
  right. reflexivity.
Defined.

(** ** The sticker test *)

(** X5: the sticker branch of [make_meme] is taken exactly when every
    pixel of the user image has an alpha value below 255, that is when
    the image has no fully opaque pixel at all. *)
Theorem sticker_iff_no_opaque_pixel (right : Image rgba) :
  PIL.pixels right <> [] ->
  wants_sticker right = true
  <-> Forall (fun p => alpha p < 255) (PIL.pixels right).
Proof. intros _. apply wants_sticker_iff. Qed.

Lemma sticker_iff_no_opaque_pixel_witness :
  wants_sticker Demo.half_clear = true
  <-> Forall (fun p => alpha p < 255) (PIL.pixels Demo.half_clear).
Proof.
  apply (sticker_iff_no_opaque_pixel Demo.half_clear). discriminate.
Defined.

(** ** [load_font] *)

Lemma load_font_from_run (P : Platform) (cands : list string) (size : Z)
    (w : World) :
  exists failed rest,
    cands = failed ++ rest
    /\ Forall (fun q => fails (truetype P q size)) failed
    /\ snd (load_font_from P cands size w)
       = mkWorld (files w) (dirs w) (trace w ++ (font_warning <$> failed))
    /\ ((rest = [] /\ fst (load_font_from P cands size w) = load_default P size)
        \/ exists p others font,
             rest = p :: others /\ truetype P p size = Ok font
             /\ fst (load_font_from P cands size w) = Ok font).
Proof.
  revert w. induction cands as [|p cands IH]; intros w.
  - exists [], []. cbn. rewrite app_nil_r. destruct w. repeat split; auto.
  - cbn [load_font_from]. destruct (truetype P p size) as [font|e] eqn:Ep.
    + exists [], (p :: cands). cbn. rewrite app_nil_r. destruct w.
      repeat split; auto. right. by exists p, cands, font.
    + unfold mbind, IO.print, log.
      match goal with |- context [load_font_from P cands size ?w'] =>
        destruct (IH w') as (failed & rest & -> & Hfailed & Hworld & Hres) end.
      exists (p :: failed), rest. split; [done|]. split.
      { constructor; [unfold fails; by rewrite Ep | done]. }
      split; [|exact Hres].
      rewrite Hworld. cbn [files dirs trace fmap list_fmap].
      by rewrite <- app_assoc.
Qed.

(** X6: [load_font] tries the candidates in their order and stops at the
    first that loads: it prints one warning for each candidate that
    failed before, in that order, and nothing else; it touches no file.
    It returns the first font that loaded, and what
    [ImageFont.load_default] gives, a font or its exception, when none
    did. *)
Theorem load_font_warnings (P : Platform) (size : Z) (w : World) :
  exists failed rest,
    candidates = failed ++ rest
    /\ Forall (fun q => fails (truetype P q size)) failed
    /\ snd (load_font P size w)
       = mkWorld (files w) (dirs w) (trace w ++ (font_warning <$> failed))
    /\ ((rest = [] /\ fst (load_font P size w) = load_default P size)
        \/ exists p others font,
             rest = p :: others /\ truetype P p size = Ok font
             /\ fst (load_font P size w) = Ok font).
Proof. apply load_font_from_run. Qed.

(** X7: [load_font] raises exactly when every candidate fails and
    [ImageFont.load_default] raises as well. *)
Theorem load_font_raises_iff (P : Platform) (size : Z) (w : World) :
  fails (fst (load_font P size w))
  <-> Forall (fun q => fails (truetype P q size)) candidates
      /\ fails (load_default P size).
Proof.
  destruct (load_font_from_run P candidates size w)
    as (failed & rest & Hc & Hfailed & _ & Hres).
  unfold load_font. destruct Hres as [[-> Hr] | (p & others & font & -> & Hp & Hr)];
    rewrite Hr.
  - rewrite app_nil_r in Hc. subst failed. tauto.
  - split; [discriminate|]. intros [Hall _]. rewrite Hc in Hall.
    apply Forall_app in Hall as [_ Hall]. apply Forall_cons in Hall as [Hbad _].
    unfold fails in Hbad. by rewrite Hp in Hbad.
Qed.

(** ** [draw_justified_text] *)

Lemma wrap_paragraphs_ok (width : Z) (paras : list string) :
  1 <= width -> is_ok (wrap_paragraphs width paras) = true.
Proof.
  intros Hw. induction paras as [|para rest IH]; [done|].
  cbn [wrap_paragraphs]. unfold Textwrap.wrap, Textwrap.wrap_chunks.
  destruct (Z.leb_spec width 0); [lia|]. cbn [rbind].
  destruct (wrap_paragraphs width rest); [done | discriminate].
Qed.

Lemma text_lines_ok (P : Platform) (font : Font) (max_width : Z)
    (text : string) :
  exists lines, text_lines P font max_width text = Ok lines.
Proof.
  pose proof (wrap_paragraphs_ok _ (Str.splitlines text)
                (est_chars_per_line_pos P font max_width)) as Hok.
  unfold text_lines.
  destruct (wrap_paragraphs _ (Str.splitlines text)) as [lines|];
    [by exists lines | discriminate].
Qed.

(** X8: [draw_justified_text] never raises, whatever the box (also one
    of negative width), the font metrics and the text: the wrap width
    handed to [textwrap.wrap], which refuses a width below one, is at
    least one. *)
Theorem draw_justified_text_never_raises (P : Platform) (img : Image rgb)
    (box : Box) (text : string) (font : Font) (fill : rgb)
    (line_spacing : Z) :
  is_ok (draw_justified_text P img box text font fill line_spacing) = true
  /\ (forall max_width, is_ok (text_lines P font max_width text) = true)
  /\ Textwrap.wrap text 0 = Err ValueError.
Proof.
  assert (forall max_width, is_ok (text_lines P font max_width text) = true)
    as Hlines.
  { intros max_width. apply wrap_paragraphs_ok, est_chars_per_line_pos. }
  split; [|split; [exact Hlines | reflexivity]].
  destruct box as [[[x0 y0] x1] y1]. unfold draw_justified_text.
  specialize (Hlines (x1 - x0)).
  destruct (text_lines P font (x1 - x0) text); [done | discriminate].
Qed.





(** *** No line is longer than the wrap width *)

Lemma of_chars_len (l : list ascii) : Str.len (Str.of_chars l) = Z.of_nat (length l).
Proof.
  unfold Str.len, Str.of_chars. f_equal.
  induction l as [|c l IH]; cbn; [done | by rewrite IH].
Qed.

Lemma clen_app (a b : list ascii) :
  Textwrap.clen (a ++ b) = Textwrap.clen a + Textwrap.clen b.
Proof. unfold Textwrap.clen. rewrite length_app. lia. Qed.

Lemma clen_concat_app (a b : list Textwrap.chunk) :
  Textwrap.clen (concat (a ++ b))
  = Textwrap.clen (concat a) + Textwrap.clen (concat b).
Proof. by rewrite concat_app, clen_app. Qed.

Lemma fill_within (width : Z) (chunks cur_line : list Textwrap.chunk)
    (cur_len : Z) :
  Textwrap.clen (concat cur_line) = cur_len -> cur_len <= width ->
  Textwrap.clen (concat (Textwrap.fill width cur_line cur_len chunks).1.1)
  = (Textwrap.fill width cur_line cur_len chunks).1.2
  /\ (Textwrap.fill width cur_line cur_len chunks).1.2 <= width.
Proof.
  revert cur_line cur_len.
  induction chunks as [|c chunks IH]; intros cur_line cur_len Hlen Hle; [done|].
  cbn [Textwrap.fill].
  destruct (Z.leb_spec (cur_len + Textwrap.clen c) width); [|done].
  apply IH; [|done]. rewrite clen_concat_app, Hlen. cbn [concat].
  by rewrite app_nil_r.
Qed.

Lemma rfind_hyphen_from_below (i : Z) (c : Textwrap.chunk) (stop : Z) :
  Textwrap.rfind_hyphen_from i c stop < stop
  \/ Textwrap.rfind_hyphen_from i c stop = -1.
Proof.
  revert i. induction c as [|a c IH]; intros i; cbn; [by right|].
  destruct (Z.leb_spec 0 (Textwrap.rfind_hyphen_from (i + 1) c stop)).
  - destruct (IH (i + 1)); [by left | lia].
  - destruct (Textwrap.is_hyphen a); cbn; [|by right].
    destruct (Z.ltb_spec i stop); [by left | by right].
Qed.

Lemma handle_long_word_within (width : Z) (cur_line : list Textwrap.chunk)
    (cur_len : Z) (chunks : list Textwrap.chunk) :
  1 <= width -> Textwrap.clen (concat cur_line) = cur_len -> cur_len <= width ->
  Textwrap.clen
    (concat (Textwrap.handle_long_word width cur_line cur_len chunks).1)
  <= width.
Proof.
  intros Hw Hlen Hle. unfold Textwrap.handle_long_word.
  destruct chunks as [|c rest]; cbn [fst]; [lia|].
  destruct (Z.ltb_spec width 1); [lia|].
  set (space_left := width - cur_len).
  pose proof (rfind_hyphen_from_below 0 c space_left) as Hfind.
  fold (Textwrap.rfind_hyphen c space_left) in Hfind.
  set (hyphen := Textwrap.rfind_hyphen c space_left) in *.
  match goal with |- context [if ?b then hyphen + 1 else space_left] =>
    set (cond := b); set (stop := if cond then hyphen + 1 else space_left) end.
  assert (0 <= stop <= space_left) as Hstop.
  { subst stop. destruct cond eqn:E; [|subst space_left; lia]. subst cond.
    apply andb_true_iff in E as [E _]. apply andb_true_iff in E as [_ E]. lia. }
  rewrite clen_concat_app, Hlen. cbn [concat]. rewrite app_nil_r.
  unfold Textwrap.clen. rewrite length_take. subst space_left. lia.
Qed.

Lemma drop_trailing_blank_within (cur_line : list Textwrap.chunk) :
  Textwrap.clen (concat (Textwrap.drop_trailing_blank cur_line))
  <= Textwrap.clen (concat cur_line).
Proof.
  unfold Textwrap.drop_trailing_blank.
  destruct (rev cur_line) as [|c before] eqn:Erev; [lia|].
  destruct (Textwrap.chunk_blank c); [|lia].
  apply (f_equal (@rev _)) in Erev. rewrite rev_involutive in Erev.
  cbn in Erev. rewrite Erev, clen_concat_app. unfold Textwrap.clen. lia.
Qed.

Lemma wrap_rounds_within (fuel : nat) (width : Z) (have_lines : bool)
    (chunks : list Textwrap.chunk) :
  1 <= width ->
  Forall (fun line => Str.len line <= width)
    (Textwrap.wrap_rounds fuel width have_lines chunks).
Proof.
  intros Hw. revert have_lines chunks.
  induction fuel as [|fuel IH]; intros have_lines chunks; [constructor|].
  destruct chunks as [|first rest]; [constructor|].
  cbn [Textwrap.wrap_rounds].
  set (chunks1 := if Textwrap.chunk_blank first && have_lines
                  then rest else first :: rest).
  pose proof (fill_within width chunks1 [] 0 eq_refl ltac:(lia)) as [Hlen Hle].
  destruct (Textwrap.fill width [] 0 chunks1) as [[cur_line cur_len] chunks2].
  cbn [fst snd] in Hlen, Hle.
  assert (exists cur_line1 chunks3,
            match chunks2 with
            | [] => (cur_line, chunks2)
            | c :: _ =>
                if width <? Textwrap.clen c
                then Textwrap.handle_long_word width cur_line cur_len chunks2
                else (cur_line, chunks2)
            end = (cur_line1, chunks3)
            /\ Textwrap.clen (concat cur_line1) <= width)
    as (cur_line1 & chunks3 & -> & Hline).
  { destruct chunks2 as [|c r]; [exists cur_line, []; split; [done | lia]|].
    destruct (width <? Textwrap.clen c).
    - pose proof (handle_long_word_within width cur_line cur_len (c :: r)
                    Hw Hlen Hle) as Hh.
      destruct (Textwrap.handle_long_word width cur_line cur_len (c :: r))
        as [l3 c3]. exists l3, c3. by split.
    - exists cur_line, (c :: r). split; [done | lia]. }
  pose proof (drop_trailing_blank_within cur_line1) as Hdrop.
  destruct (Textwrap.drop_trailing_blank cur_line1) as [|l line]; [apply IH|].
  constructor; [|apply IH].
  rewrite of_chars_len. unfold Textwrap.clen in *. lia.
Qed.

Lemma wrap_within (width : Z) (para : string) (wrapped : list string) :
  1 <= width -> Textwrap.wrap para width = Ok wrapped ->
  Forall (fun line => Str.len line <= width) wrapped.
Proof.
  intros Hw. unfold Textwrap.wrap, Textwrap.wrap_chunks.
  destruct (Z.leb_spec width 0); [lia|]. intros Heq.
  replace wrapped with
    (Textwrap.wrap_rounds
       (Textwrap.rounds_bound
          (Textwrap.split (Textwrap.munge_whitespace (Str.chars para))))
       width false
       (Textwrap.split (Textwrap.munge_whitespace (Str.chars para))))
    by congruence.
  by apply wrap_rounds_within.
Qed.

Lemma wrap_paragraphs_within (width : Z) (paras : list string)
    (lines : list string) :
  1 <= width -> wrap_paragraphs width paras = Ok lines ->
  Forall (fun line => Str.len line <= width) lines.
Proof.
  intros Hw. revert lines.
  induction paras as [|para rest IH]; intros lines; cbn [wrap_paragraphs].
  - intros [= <-]. constructor.
  - destruct (Textwrap.wrap para width) as [wrapped|] eqn:Ewrap;
      [|discriminate].
    unfold rbind at 1.
    destruct (wrap_paragraphs width rest) as [more|]; [|discriminate].
    unfold rbind. intros [= <-]. rewrite !Forall_app. repeat split.
    + by eapply wrap_within.
    + destruct (Str.is_blank para); [|constructor].
      apply Forall_cons. split; [|constructor].
      change (Str.len "") with 0. lia.
    + by apply IH.
Qed.

(** X11: no line that [draw_justified_text] draws has more characters
    than the estimated wrap width, however long the words of the
    caption are. *)
Theorem lines_within_wrap_width (P : Platform) (font : Font)
    (max_width : Z) (text : string) :
  exists lines,
    text_lines P font max_width text = Ok lines
    /\ Forall (fun line => Str.len line <= est_chars_per_line P font max_width)
         lines.
Proof.
  pose proof (est_chars_per_line_pos P font max_width) as Hw.
  pose proof (wrap_paragraphs_ok _ (Str.splitlines text) Hw) as Hok.
  unfold text_lines.
  destruct (wrap_paragraphs _ (Str.splitlines text)) as [lines|] eqn:E;
    [|discriminate].
  exists lines. split; [done|]. by eapply wrap_paragraphs_within.
Qed.

(** *** Where the lines are drawn *)

Lemma draw_lines_calls (P : Platform) (img : Image rgb)
    (x0 max_width y step : Z) (font : Font) (fill : rgb) (lines : list string) :
  draw_lines P img x0 max_width y step font fill lines
  = foldl (fun im call => draw_text P im (call.1.1, call.1.2) call.2 font fill)
      img (text_calls P x0 max_width y step font lines).
Proof.
  revert img y. induction lines as [|line rest IH]; intros img y; [done|].
  cbn [draw_lines text_calls foldl fst snd]. apply IH.
Qed.

Lemma text_calls_lookup (P : Platform) (x0 max_width y step : Z) (font : Font)
    (lines : list string) (i : nat) (x : Q) (y' : Z) (line : string) :
  text_calls P x0 max_width y step font lines !! i = Some (x, y', line) ->
  lines !! i = Some line
  /\ y' = y + Z.of_nat i * step
  /\ x = (inject_Z x0
          + Py.floordiv2 (inject_Z max_width - getlength P font line))%Q.
Proof.
  revert y i. induction lines as [|l rest IH]; intros y i; [done|].
  destruct i as [|i]; cbn [text_calls lookup list_lookup].
  - intros [= <- <- <-]. repeat split. lia.
  - intros Hi. apply IH in Hi as (Hl & -> & ->). repeat split; [done | lia].
Qed.

Lemma text_calls_length (P : Platform) (x0 max_width y step : Z) (font : Font)
    (lines : list string) :
  length (text_calls P x0 max_width y step font lines) = length lines.
Proof.
  revert y. induction lines as [|l rest IH]; intros y; [done|].
  cbn [text_calls length]. by rewrite IH.
Qed.

Lemma half_slack (s : Q) :
  (0 <= s - Py.floordiv2 s - Py.floordiv2 s)%Q
  /\ (s - Py.floordiv2 s - Py.floordiv2 s < 2)%Q.
Proof.
  unfold Py.floordiv2.
  pose proof (Qfloor_le (s / 2)) as Hlo. pose proof (Qlt_floor (s / 2)) as Hhi.
  rewrite inject_Z_plus in Hhi. change (inject_Z 1) with 1%Q in Hhi.
  assert (s == 2 * (s / 2))%Q as Hs by field.
  set (f := inject_Z (Qfloor (s / 2))) in *. set (h := (s / 2)%Q) in *.
  split; lra.
Qed.

(** X12: [draw_justified_text] draws the lines top to bottom, each
    [line height + line spacing] below the one before; the block is
    centred in the box vertically, the slack below it exceeding the
    slack above it by at most one pixel, and each line is centred
    horizontally by its own measured width, the slack on its right
    exceeding the slack on its left by less than two pixels. *)
Theorem text_block_centred (P : Platform) (img : Image rgb)
    (x0 y0 x1 y1 : Z) (text : string) (font : Font) (fill : rgb)
    (line_spacing : Z) :
  exists lines,
    text_lines P font (x1 - x0) text = Ok lines
    /\ let lh := line_height P font in
       let n := Z.of_nat (length lines) in
       let total_h := n * lh + (n - 1) * line_spacing in
       let y_start := y0 + (y1 - y0 - total_h) / 2 in
       let calls :=
         text_calls P x0 (x1 - x0) y_start (lh + line_spacing) font lines in
       draw_justified_text P img (x0, y0, x1, y1) text font fill line_spacing
       = Ok (foldl (fun im call =>
                      draw_text P im (call.1.1, call.1.2) call.2 font fill)
               img calls)
       /\ length calls = length lines
       /\ 0 <= (y1 - (y_start + total_h)) - (y_start - y0) <= 1
       /\ forall (i : nat) x y line, calls !! i = Some (x, y, line) ->
            lines !! i = Some line
            /\ y = y_start + Z.of_nat i * (lh + line_spacing)
            /\ let left := (x - inject_Z x0)%Q in
               let right :=
                 (inject_Z x1 - (x + getlength P font line))%Q in
               (0 <= right - left)%Q /\ (right - left < 2)%Q.
Proof.
  destruct (text_lines_ok P font (x1 - x0) text) as (lines & Hlines).
  exists lines. split; [exact Hlines|]. cbv zeta.
  unfold draw_justified_text. rewrite Hlines. unfold rbind.
  rewrite draw_lines_calls. split; [reflexivity|]. split.
  { apply text_calls_length. }
  split.
  { set (total_h := Z.of_nat (length lines) * line_height P font
                    + (Z.of_nat (length lines) - 1) * line_spacing).
    pose proof (Z.div_mod (y1 - y0 - total_h) 2 ltac:(lia)).
    pose proof (Z.mod_pos_bound (y1 - y0 - total_h) 2 ltac:(lia)). lia. }
  intros i x y line Hcall. apply text_calls_lookup in Hcall as (Hl & -> & ->).
  split; [done|]. split; [done|].
  set (w := getlength P font line).
  pose proof (half_slack (inject_Z (x1 - x0) - w)) as [Hlo Hhi].
  set (f := Py.floordiv2 (inject_Z (x1 - x0) - w)) in *.
  assert (inject_Z x1 - (inject_Z x0 + f + w) - (inject_Z x0 + f - inject_Z x0)
          == inject_Z (x1 - x0) - w - f - f)%Q as Heq.
  { unfold Z.sub. rewrite inject_Z_plus, inject_Z_opp. ring. }
  split; lra.
Qed.

(** ** [make_meme] *)

(** X13: a call of [make_meme] that raises, at whatever step, leaves
    every file as it was: the output file is written last, after all
    the steps that can fail. *)
Theorem make_meme_raise_writes_no_file (P : Platform) (user : ImageSource)
    (text out_path : string) (canvas_w canvas_h font_size : Z)
    (w w' : World) (e : exn) :
  make_meme P user text out_path canvas_w canvas_h font_size w = (Err e, w') ->
  files w' = files w.
Proof. apply make_meme_failure_writes_nothing. Qed.

Lemma strip_run_eq :
  make_meme Demo.no_fonts (FromBytes "strip") "press e" "meme.png"
    750 923 36 Demo.world
  = (Err ValueError,
     snd (make_meme Demo.no_fonts (FromBytes "strip") "press e" "meme.png"
            750 923 36 Demo.world)).
Proof.
  assert (fst (make_meme Demo.no_fonts (FromBytes "strip") "press e"
                 "meme.png" 750 923 36 Demo.world) = Err ValueError) as Hfst
    by (vm_compute; reflexivity).
  destruct (make_meme _ _ _ _ _ _ _ _) as [r w']. cbn [fst snd] in *.
  by rewrite Hfst.
Defined.

Lemma make_meme_raise_writes_no_file_witness :
  files (snd (make_meme Demo.no_fonts (FromBytes "strip") "press e"
                "meme.png" 750 923 36 Demo.world))
  = files Demo.world.
Proof.
  exact (make_meme_raise_writes_no_file Demo.no_fonts (FromBytes "strip")
           "press e" "meme.png" 750 923 36 Demo.world _ ValueError
           strip_run_eq).
Defined.



Lemma open_image_ok (P : Platform) (src : ImageSource) (w w' : World)
    (im : Image rgba) :
  IO.open_image P src w = (Ok im, w') ->
  IO.read_image P (files w) src = Ok im
  /\ w' = mkWorld (files w) (dirs w) (trace w ++ [Opened src]).
Proof.
  unfold IO.open_image, mbind, log. cbn [files]. by intros [= -> <-].
Qed.

(** X15: a call of [make_meme] that returns has opened the template and
    then the user image, once each, has printed a warning for every
    font candidate that failed before one loaded, has made the
    directories of the output path and has saved the file, in this
    order, and has done nothing else. *)
Theorem make_meme_effects_in_order (P : Platform) (user : ImageSource)
    (text out_path : string) (canvas_w canvas_h font_size : Z)
    (w w' : World) (bg : Image rgb) :
  make_meme P user text out_path canvas_w canvas_h font_size w = (Ok bg, w') ->
  exists failed rest,
    candidates = failed ++ rest
    /\ Forall (fun q => fails (truetype P q font_size)) failed
    /\ trace w' = trace w
         ++ [Opened (FromPath sabrina_path); Opened user]
         ++ (font_warning <$> failed)
         ++ [MadeDirs (IO.ancestors out_path); Saved out_path].
Proof.
  intros Hrun. unfold make_meme in Hrun. cbv zeta in Hrun.
  apply mbind_ok in Hrun as (bg0 & w1 & Hbg0 & Hrun). apply lift_ok in Hbg0 as [_ ->].
  apply mbind_ok in Hrun as (sabrina & w2 & Hs & Hrun).
  apply open_image_ok in Hs as [_ ->].
  apply mbind_ok in Hrun as (right & w3 & Hr & Hrun).
  apply open_image_ok in Hr as [_ ->]. cbn [files dirs trace] in Hrun.
  apply mbind_ok in Hrun as (left_fit & w4 & Hl & Hrun). apply lift_ok in Hl as [_ ->].
  apply mbind_ok in Hrun as (right_fit & w5 & Hf & Hrun). apply lift_ok in Hf as [_ ->].
  apply mbind_ok in Hrun as (right_fit' & w6 & Hf' & Hrun). apply lift_ok in Hf' as [_ ->].
  apply mbind_ok in Hrun as (panel & w7 & Hpanel & Hrun). apply lift_ok in Hpanel as [_ ->].
  apply mbind_ok in Hrun as (font & w8 & Hfont & Hrun).
  apply mbind_ok in Hrun as (drawn & w9 & Hdraw & Hrun). apply lift_ok in Hdraw as [_ ->].
  apply mbind_ok in Hrun as ([] & w10 & Hmk & Hrun).
  apply mbind_ok in Hrun as ([] & w11 & Hsave & Hrun).
  unfold mret in Hrun. injection Hrun as _ <-.
  match type of Hfont with load_font P font_size ?w0 = _ =>
    destruct (load_font_from_run P candidates font_size w0)
      as (failed & rest & Hc & Hfailed & Hworld & _) end.
  fold (load_font P font_size) in Hworld. rewrite Hfont in Hworld.
  cbn [snd files dirs trace] in Hworld. subst w8.
  unfold IO.mkdir_parents in Hmk. cbn [files dirs trace] in Hmk.
  destruct (existsb _ _); [discriminate|]. injection Hmk as <-.
  unfold IO.save in Hsave. cbn [files dirs trace] in Hsave.
  destruct (bool_decide _); [discriminate|]. injection Hsave as <-.
  exists failed, rest. split; [exact Hc|]. split; [exact Hfailed|].
  cbn [trace]. by rewrite <- !app_assoc.
Qed.

(** X16: a negative canvas width or height makes [make_meme] raise
    [ValueError] at the allocation of the background, before it opens
    any image: nothing is read, printed or written. *)
Theorem make_meme_negative_canvas (P : Platform) (user : ImageSource)
    (text out_path : string) (canvas_w canvas_h font_size : Z) (w : World) :
  canvas_w < 0 \/ canvas_h < 0 ->
  make_meme P user text out_path canvas_w canvas_h font_size w
  = (Err ValueError, w).
Proof.
  intros Hneg. unfold make_meme. cbv zeta. unfold mbind at 1, lift at 1.
  unfold PIL.new.
  destruct (Z.ltb_spec canvas_w 0), (Z.ltb_spec canvas_h 0);
    cbn [orb]; try reflexivity. lia.
Qed.

Lemma make_meme_negative_canvas_witness :
  make_meme Demo.no_fonts (FromBytes "portrait") "press e" "meme.png"
    (-1) 923 36 Demo.world
  = (Err ValueError, Demo.world).
Proof.
  apply (make_meme_negative_canvas Demo.no_fonts (FromBytes "portrait")
           "press e" "meme.png" (-1) 923 36 Demo.world).
  left. lia.
Defined.

Lemma make_meme_effects_in_order_witness :
  exists failed rest,
    candidates = failed ++ rest
    /\ Forall (fun q => fails (truetype Demo.no_fonts q 36)) failed
    /\ trace (snd demo_run) = trace Demo.world
         ++ [Opened (FromPath sabrina_path); Opened (FromBytes "portrait")]
         ++ (font_warning <$> failed)
         ++ [MadeDirs (IO.ancestors "out/meme.png"); Saved "out/meme.png"].
Proof.
  exact (make_meme_effects_in_order Demo.no_fonts (FromBytes "portrait")
           "press e" "out/meme.png" 750 923 36 Demo.world (snd demo_run)
           demo_image demo_run_eq).
Defined.

Lemma top_h_value (canvas_h : Z) :
  0 <= canvas_h ->
  Py.int (inject_Z canvas_h * (56 # 100)) = canvas_h * 56 / 100.
Proof.
  intros Hh. unfold Py.int. cbn [Qnum Qden Qmult inject_Z].
  rewrite Z.mul_1_r || idtac. apply Z.quot_div_nonneg; lia.
Qed.

Lemma fit_image_no_room (P : Platform) (img : Image rgb) (box_w box_h : Z) :
  0 < width img -> 0 < height img -> box_w <= 0 -> 0 < box_h ->
  fit_image P img box_w box_h = Err ValueError.
Proof.
  intros Hw Hh Hbw Hbh. unfold fit_image, fit_size, Py.truediv.
  destruct (Z.eqb_spec (height img) 0); [lia|].
  destruct (Z.eqb_spec box_h 0); [lia|]. cbn [rbind].
  rewrite ratio_gt by lia.
  destruct (Z.ltb_spec (box_w * height img) (width img * box_h)); [|nia].
  unfold Py.div_float.
  destruct (Qeq_bool (inject_Z (width img) / inject_Z (height img)) 0) eqn:Hz.
  { apply Qeq_bool_eq in Hz. rewrite ratio_eq in Hz by lia.
    unfold Qeq in Hz. cbn in Hz. lia. }
  cbn [rbind]. unfold PIL.resize.
  destruct (Z.eqb_spec (width img) box_w); [lia|]. cbn [andb].
  destruct (Z.ltb_spec box_w 1); [reflexivity | lia].
Qed.

(** X17: [make_meme] needs a canvas at least 34 pixels wide and 2 pixels
    high.  On a narrower canvas the columns have no width and the call
    raises [ValueError] when it fits the template; on a canvas of height
    0 or 1 the top row has no height and it raises
    [ZeroDivisionError].  Both images have been opened by then. *)
Theorem make_meme_small_canvas (P : Platform) (user : ImageSource)
    (text out_path : string) (canvas_w canvas_h font_size : Z) (w : World)
    (sabrina right : Image rgba) :
  0 <= canvas_w -> 0 <= canvas_h -> canvas_w < 34 \/ canvas_h < 2 ->
  IO.read_image P (files w) (FromPath sabrina_path) = Ok sabrina ->
  0 < width sabrina -> 0 < height sabrina ->
  IO.read_image P (files w) user = Ok right ->
  make_meme P user text out_path canvas_w canvas_h font_size w
  = (Err (if canvas_h <? 2 then ZeroDivisionError else ValueError),
     mkWorld (files w) (dirs w)
       (trace w ++ [Opened (FromPath sabrina_path); Opened user])).
Proof.
  intros Hcw Hch Hsmall Hs Hsw Hsh Hr. unfold make_meme. cbv zeta.
  rewrite top_h_value by lia.
  unfold mbind at 1, lift at 1. rewrite new_ok by lia.
  unfold mbind at 1. unfold IO.open_image at 1, mbind at 1, log.
  cbn [files dirs trace]. rewrite Hs.
  unfold mbind at 1. unfold IO.open_image at 1, mbind at 1, log.
  cbn [files dirs trace]. rewrite Hr.
  unfold mbind at 1, lift at 1. rewrite <- app_assoc. cbn [app].
  destruct (Z.ltb_spec canvas_h 2) as [Hlow|Hhigh].
  - rewrite fit_image_zero_division; [reflexivity|]. right.
    apply Z.div_small. lia.
  - rewrite fit_image_no_room; [reflexivity | done | done | | ].
    + assert ((canvas_w - 2 * 12 - 8) / 2 < 1)
        by (apply Z.div_lt_upper_bound; lia). lia.
    + apply Z.div_str_pos. lia.
Qed.

Lemma make_meme_small_canvas_witness :
  make_meme Demo.no_fonts (FromBytes "portrait") "press e" "meme.png"
    33 923 36 Demo.world
  = (Err (if 923 <? 2 then ZeroDivisionError else ValueError),
     mkWorld (files Demo.world) (dirs Demo.world)
       (trace Demo.world
        ++ [Opened (FromPath sabrina_path); Opened (FromBytes "portrait")])).
Proof.
  apply (make_meme_small_canvas Demo.no_fonts (FromBytes "portrait")
           "press e" "meme.png" 33 923 36 Demo.world
           (Demo.solid 30 40 (RGBA 200 0 0 255))
           (Demo.solid 30 40 (RGBA 200 0 0 255))); try lia.
  - unfold IO.read_image, Demo.world. cbn [files].
    rewrite lookup_singleton_eq. reflexivity.
  - cbn. lia.
  - cbn. lia.
  - reflexivity.
Defined.

(** ** [process_file] *)

(** X18: [process_file] answers every command once, after deferring.
    When [make_meme] returns, the answer carries the file [meme.png]
    whose bytes are those just saved in [output_meme.png], the one path
    every command writes, and no other file has changed; when
    [make_meme] raises, whatever the exception, the answer is the error
    and no file has changed. *)
Theorem process_file_reply (P : Platform) (prompt file_bytes : string)
    (font_size : Z) (w : World) :
  (exists data,
     fst (process_file P prompt file_bytes font_size w)
     = [Deferred; Responded (MemeReply "meme.png" data)]
     /\ files (snd (process_file P prompt file_bytes font_size w))
          !! "output_meme.png" = Some data
     /\ forall p, p <> "output_meme.png" ->
          files (snd (process_file P prompt file_bytes font_size w)) !! p
          = files w !! p)
  \/ (exists e,
        fst (process_file P prompt file_bytes font_size w)
        = [Deferred; Responded (ErrorReply e)]
        /\ fst (make_meme P (FromBytes file_bytes) (prompt_template prompt)
                  "output_meme.png" 750 923 font_size w) = Err e
        /\ files (snd (process_file P prompt file_bytes font_size w))
           = files w).
Proof.
  unfold process_file.
  destruct (make_meme P (FromBytes file_bytes) (prompt_template prompt)
              "output_meme.png" 750 923 font_size w) as [[img|e] w'] eqn:Hrun;
    cbn [fst snd].
  - left. exists (encode_png P img). split; [done|].
    apply make_meme_return_saves in Hrun as (Hf & _ & _). rewrite Hf. split.
    + apply lookup_insert_eq.
    + intros p Hp. by apply lookup_insert_ne.
  - right. exists e. repeat split.
    by apply make_meme_failure_writes_nothing in Hrun.
Qed.

(** *** The caption of the bot *)

Lemma chars_app (a b : string) :
  Str.chars (a ++ b)%string = Str.chars a ++ Str.chars b.
Proof.
  unfold Str.chars. induction a as [|c a IH]; [done|].
  change (list_ascii_of_string (String c a +:+ b))
    with (c :: list_ascii_of_string (a +:+ b)).
  rewrite IH. reflexivity.
Qed.

Lemma chars_of_chars (l : list ascii) : Str.chars (Str.of_chars l) = l.
Proof. apply list_ascii_of_string_of_list_ascii. Qed.

Lemma of_chars_chars (s : string) : Str.of_chars (Str.chars s) = s.
Proof. apply string_of_list_ascii_of_string. Qed.

Lemma of_chars_app (a b : list ascii) :
  Str.of_chars (a ++ b) = (Str.of_chars a ++ Str.of_chars b)%string.
Proof.
  unfold Str.of_chars. induction a as [|c a IH]; [done|].
  simpl. rewrite IH. reflexivity.
Qed.

Lemma upper_app (a b : string) :
  Str.upper (a ++ b)%string = (Str.upper a ++ Str.upper b)%string.
Proof. unfold Str.upper. by rewrite chars_app, fmap_app, of_chars_app. Qed.

Lemma upper_char_idem (c : ascii) :
  Str.upper_char (Str.upper_char c) = Str.upper_char c.
Proof.
  destruct c as [[] [] [] [] [] [] [] []]; vm_compute; reflexivity.
Qed.

Lemma upper_idem (s : string) : Str.upper (Str.upper s) = Str.upper s.
Proof.
  unfold Str.upper. rewrite chars_of_chars. f_equal.
  rewrite <- list_fmap_compose. apply list_fmap_ext. intros _ c _.
  apply upper_char_idem.
Qed.

Lemma prompt_template_upper (prompt : string) :
  Str.upper (prompt_template prompt) = prompt_template prompt.
Proof. unfold prompt_template. by rewrite !upper_app, !upper_idem. Qed.

(** X19: the caption that [process_file] hands to [make_meme] is upper
    case already, so the upper-casing of [make_meme] draws it as it is;
    and the case of the prompt does not matter. *)
Theorem bot_caption_upper (prompt : string) :
  Str.upper (prompt_template prompt) = prompt_template prompt
  /\ prompt_template (Str.upper prompt) = prompt_template prompt.
Proof.
  unfold prompt_template. rewrite !upper_app, !upper_idem. by split.
Qed.

Lemma upper_char_linebreak (c : ascii) :
  Str.is_linebreak (Str.upper_char c) = Str.is_linebreak c.
Proof.
  destruct c as [[] [] [] [] [] [] [] []]; vm_compute; reflexivity.
Qed.

Lemma splitlines_from_plain (cur l tail : list ascii) :
  forallb (fun c => negb (Str.is_linebreak c)) l = true ->
  Str.splitlines_from false cur (l ++ tail)
  = Str.splitlines_from false (cur ++ l) tail.
Proof.
  revert cur. induction l as [|c l IH]; intros cur Hplain.
  - by rewrite app_nil_r.
  - cbn in Hplain. apply andb_true_iff in Hplain as [Hc Hl].
    apply negb_true_iff in Hc.
    cbn [app Str.splitlines_from andb]. rewrite Hc.
    rewrite IH by done. by rewrite <- app_assoc.
Qed.

Lemma prompt_template_paragraphs (prompt : string) :
  forallb (fun c => negb (Str.is_linebreak c)) (Str.chars prompt) = true ->
  Str.splitlines (prompt_template prompt) = [""; bot_sentence prompt; "    "].
Proof.
  intros Hplain. unfold Str.splitlines, prompt_template.
  change (newline ++ "    SABRINA CARPENTER DOES NOT KNOW HOW TO "
          ++ Str.upper prompt ++ newline ++ "    ")%string
    with (newline ++ bot_sentence prompt ++ newline ++ "    ")%string.
  rewrite !chars_app.
  change (Str.chars newline) with [Str.chr 10]. cbn [app].
  change (Str.splitlines_from false [] (Str.chr 10 :: ?l))
    with (Str.of_chars [] :: Str.splitlines_from false [] l).
  rewrite splitlines_from_plain.
  - cbn [app]. change (Str.splitlines_from false ?cur (Str.chr 10 :: ?l))
      with (Str.of_chars cur :: Str.splitlines_from false [] l).
    by rewrite of_chars_chars.
  - unfold bot_sentence. rewrite chars_app, forallb_app. apply andb_true_iff.
    split; [reflexivity|]. unfold Str.upper. rewrite chars_of_chars.
    rewrite forallb_forall in Hplain. apply forallb_forall.
    intros c Hc. apply in_map_iff in Hc as (c0 & <- & Hc0).
    rewrite upper_char_linebreak. by apply Hplain.
Qed.

Lemma wrap_four_spaces (width : Z) :
  1 <= width -> Textwrap.wrap "    " width = Ok [].
Proof.
  intros Hw. destruct (Z.le_gt_cases 4 width) as [Hwide|Hnarrow].
  - destruct (paragraph_one_line width "    " Hw) as (wrapped & Hwrap & _ & Hnil).
    + split; [exact Hwide | reflexivity].
    + rewrite Hwrap. f_equal. by apply Hnil.
  - assert (width = 1 \/ width = 2 \/ width = 3) as [-> | [-> | ->]] by lia;
      vm_compute; reflexivity.
Qed.

(** X20: for a prompt without line breaks the caption of the bot has
    three paragraphs, an empty one, the sentence and four spaces, so the
    block that is drawn begins and ends with an empty line, with the
    wrapped sentence between them: the text stands one line height
    (and spacing) away from where it would be centred alone. *)
Theorem bot_caption_lines (P : Platform) (font : Font) (max_width : Z)
    (prompt : string) :
  forallb (fun c => negb (Str.is_linebreak c)) (Str.chars prompt) = true ->
  exists wrapped,
    Textwrap.wrap (bot_sentence prompt) (est_chars_per_line P font max_width)
    = Ok wrapped
    /\ text_lines P font max_width (Str.upper (prompt_template prompt))
       = Ok ([""] ++ wrapped ++ [""]).
Proof.
  intros Hplain. pose proof (est_chars_per_line_pos P font max_width) as Hw.
  rewrite prompt_template_upper.
  unfold text_lines. rewrite prompt_template_paragraphs by exact Hplain.
  set (width := est_chars_per_line P font max_width) in *.
  assert (is_ok (Textwrap.wrap (bot_sentence prompt) width) = true) as Hok.
  { unfold Textwrap.wrap, Textwrap.wrap_chunks.
    destruct (Z.leb_spec width 0); [lia | done]. }
  destruct (Textwrap.wrap (bot_sentence prompt) width) as [wrapped|] eqn:Ewrap;
    [|discriminate].
  exists wrapped. split; [done|].
  cbn [wrap_paragraphs]. rewrite Ewrap, wrap_four_spaces by exact Hw.
  assert (Textwrap.wrap "" width = Ok []) as ->.
  { unfold Textwrap.wrap, Textwrap.wrap_chunks.
    destruct (Z.leb_spec width 0); [lia | done]. }
  assert (Str.is_blank (bot_sentence prompt) = false) as ->.
  { apply not_true_iff_false. intros Hb. apply is_blank_iff in Hb.
    unfold bot_sentence in Hb. rewrite chars_app, forallb_app in Hb.
    apply andb_true_iff in Hb as [Hb _]. vm_compute in Hb. discriminate. }
  unfold rbind. cbn [app]. by rewrite app_nil_r.
Qed.

Lemma bot_caption_lines_witness :
  exists wrapped,
    Textwrap.wrap (bot_sentence "press e")
      (est_chars_per_line Demo.no_fonts (DefaultFont 36) 710)
    = Ok wrapped
    /\ text_lines Demo.no_fonts (DefaultFont 36) 710
         (Str.upper (prompt_template "press e"))
       = Ok ([""] ++ wrapped ++ [""]).
Proof.
  apply (bot_caption_lines Demo.no_fonts (DefaultFont 36) 710 "press e").
  reflexivity.
Defined.

(** ** The script *)

(** X21: the script reports in one of three ways.  It prints that the
    meme was saved only after [generated_meme.png] holds the encoded
    image; it takes every [FileNotFoundError] of [make_meme], also that
    of a missing template, for a missing user image and prints the
    fixed message, without raising; any other exception escapes it.  In
    the last two cases no file has changed. *)
Theorem main_reports (P : Platform) (w : World) :
  (exists img w1,
     make_meme P (FromPath "user_image.png") example_text
       "generated_meme.png" 750 923 48 w = (Ok img, w1)
     /\ main P w = (Ok tt, mkWorld (files w1) (dirs w1)
                             (trace w1 ++ [Printed saved_message]))
     /\ files w1 !! "generated_meme.png" = Some (encode_png P img))
  \/ (exists w1,
        make_meme P (FromPath "user_image.png") example_text
          "generated_meme.png" 750 923 48 w = (Err FileNotFoundError, w1)
        /\ main P w = (Ok tt, mkWorld (files w1) (dirs w1)
                                (trace w1 ++ [Printed not_found_message]))
        /\ files w1 = files w)
  \/ (exists e w1,
        e <> FileNotFoundError
        /\ main P w = (Err e, w1) /\ files w1 = files w).
Proof.
  unfold main.
  destruct (make_meme P (FromPath "user_image.png") example_text
              "generated_meme.png" 750 923 48 w) as [[img|e] w1] eqn:Hrun.
  - left. exists img, w1. repeat split.
    apply make_meme_return_saves in Hrun as (Hf & _ & _). rewrite Hf.
    apply lookup_insert_eq.
  - pose proof (make_meme_failure_writes_nothing _ _ _ _ _ _ _ _ _ _ Hrun) as Hf.
    destruct e; try (right; right; eexists _, w1; repeat split;
                     [discriminate | exact Hf]).
    right. left. exists w1. by repeat split.
Qed.
